(** * Memo / invoice reconciliation: a shallow embedding of the invoice form,
      the memo list and the print coordinator

    Sources embedded here:
    - [src/components/forms/NewTripForm.tsx]  (the [InvoiceForm] component)
    - [src/unnamed/part_001]                  (the [MemoCRUD] component)
    - [src/unnamed/part_000]                  (the [App] shell, for the props it passes)

    React state is modelled by explicit state passing: every handler is a
    function from the component state to the next state together with the
    list of externally visible actions it performed (service calls, toasts,
    parent callbacks).  A promise is modelled by the value it settles with. *)

From Stdlib Require Import Ascii String QArith.
From stdpp Require Import numbers strings gmap fin_maps list.

Local Open Scope string_scope.
Local Open Scope bool_scope.
Local Open Scope list_scope.

(** ** JavaScript numbers

    The source computes with JavaScript numbers and reads them with the
    builtin [parseFloat].  Neither is code of the repository, so the
    development is generic in them: [JsNumber] is the interface the source
    uses, with the three facts about the literal [0] that the source relies
    on.  A decimal instance is given further down and is used wherever a
    statement is evaluated on concrete data. *)
Class JsNumber := {
  number : Type;
  number_eq_dec :: EqDecision number;
  (** the literal [0] *)
  zero : number;
  (** [a + b] and [a - b] *)
  add : number → number → number;
  sub : number → number → number;
  (** ToBoolean on a number: [false] for [0] and [NaN] *)
  truthy : number → bool;
  (** the builtin [parseFloat] *)
  parseFloat : string → number;
  parseFloat_0 : parseFloat "0" = zero;
  truthy_zero : truthy zero = false;
  sub_zero_zero : sub zero zero = zero;
}.

(** ToBoolean on strings and on (integer) identifiers. *)
Definition str_truthy (s : string) : bool :=
  match s with EmptyString => false | String _ _ => true end.

Definition id_truthy (z : Z) : bool := negb (z =? 0)%Z.

(** [o || d] for an optional string, an optional number and an optional
    identifier ([None] is [undefined] / [null]). *)
Definition opt_str_truthy (o : option string) : bool :=
  match o with Some s => str_truthy s | None => false end.

Definition str_or (o : option string) (d : string) : string :=
  match o with Some s => if str_truthy s then s else d | None => d end.

Definition opt_id_truthy (o : option Z) : bool :=
  match o with Some z => id_truthy z | None => false end.

Definition num_or `{JsNumber} (o : option number) (d : number) : number :=
  match o with Some x => if truthy x then x else d | None => d end.

(** ** Data model ([types.ts] is not part of the sources; the fields are the
    ones the components read and write) *)

Record MemoData := {
  trips_memo_no : string;
  customers_name : string;
  trip_operated_date1 : string;
  trips_vehicle_no : string;
  trips_total_amt : string;
  trips_balance : string;
}.

Module Customer.
Record t := { customers_name : string }.
End Customer.

Inductive InvoiceStatus := Draft | Finalized | Paid.

(** A persisted [Invoice]: every field is present. *)
Module Invoice.
Section defs.
Context `{JsNumber}.
Record t := {
  id : Z;
  invoice_no : string;
  invoice_date : string;
  customer_name : string;
  memo_nos : list string;
  total_amount : number;
  amount_paid : number;
  balance : number;
  status : InvoiceStatus;
}.
End defs.
End Invoice.

Section model.
Context `{JsNumber}.

(** [Partial<Invoice>], the type of the form's [invoice] state: every
    field may be [undefined]. *)
Record PartialInvoice := {
  id : option Z;
  invoice_no : option string;
  invoice_date : option string;
  customer_name : option string;
  memo_nos : option (list string);
  total_amount : option number;
  amount_paid : option number;
  balance : option number;
  status : option InvoiceStatus;
}.

(** [setInvoice(loadedInvoice)]: an [Invoice] seen as a [Partial<Invoice>]. *)
Definition of_invoice (i : Invoice.t) : PartialInvoice :=
  {| id := Some (Invoice.id i);
     invoice_no := Some (Invoice.invoice_no i);
     invoice_date := Some (Invoice.invoice_date i);
     customer_name := Some (Invoice.customer_name i);
     memo_nos := Some (Invoice.memo_nos i);
     total_amount := Some (Invoice.total_amount i);
     amount_paid := Some (Invoice.amount_paid i);
     balance := Some (Invoice.balance i);
     status := Some (Invoice.status i) |}.

(** [initialInvoiceState]; [today] is [new Date().toISOString().split('T')[0]]
    evaluated when the module is loaded. *)
Definition initialInvoiceState (today : string) : PartialInvoice :=
  {| id := None;
     invoice_no := Some "";
     invoice_date := Some today;
     customer_name := Some "";
     memo_nos := Some [];
     total_amount := Some zero;
     amount_paid := Some zero;
     balance := Some zero;
     status := Some Draft |}.

(** Object spreads [{...prev, field: v}]. *)
Definition with_invoice_no (v : string) (p : PartialInvoice) : PartialInvoice :=
  {| id := id p; invoice_no := Some v; invoice_date := invoice_date p;
     customer_name := customer_name p; memo_nos := memo_nos p;
     total_amount := total_amount p; amount_paid := amount_paid p;
     balance := balance p; status := status p |}.

Definition with_invoice_date (v : string) (p : PartialInvoice) : PartialInvoice :=
  {| id := id p; invoice_no := invoice_no p; invoice_date := Some v;
     customer_name := customer_name p; memo_nos := memo_nos p;
     total_amount := total_amount p; amount_paid := amount_paid p;
     balance := balance p; status := status p |}.

Definition with_customer (name : string) (nos : list string) (p : PartialInvoice)
  : PartialInvoice :=
  {| id := id p; invoice_no := invoice_no p; invoice_date := invoice_date p;
     customer_name := Some name; memo_nos := Some nos;
     total_amount := total_amount p; amount_paid := amount_paid p;
     balance := balance p; status := status p |}.

Definition with_memo_nos (nos : list string) (p : PartialInvoice) : PartialInvoice :=
  {| id := id p; invoice_no := invoice_no p; invoice_date := invoice_date p;
     customer_name := customer_name p; memo_nos := Some nos;
     total_amount := total_amount p; amount_paid := amount_paid p;
     balance := balance p; status := status p |}.

Definition with_totals (total bal : number) (p : PartialInvoice) : PartialInvoice :=
  {| id := id p; invoice_no := invoice_no p; invoice_date := invoice_date p;
     customer_name := customer_name p; memo_nos := memo_nos p;
     total_amount := Some total; amount_paid := amount_paid p;
     balance := Some bal; status := status p |}.

Definition with_amount_paid (v : number) (p : PartialInvoice) : PartialInvoice :=
  {| id := id p; invoice_no := invoice_no p; invoice_date := invoice_date p;
     customer_name := customer_name p; memo_nos := memo_nos p;
     total_amount := total_amount p; amount_paid := Some v;
     balance := balance p; status := status p |}.

Definition with_status (v : InvoiceStatus) (p : PartialInvoice) : PartialInvoice :=
  {| id := id p; invoice_no := invoice_no p; invoice_date := invoice_date p;
     customer_name := customer_name p; memo_nos := memo_nos p;
     total_amount := total_amount p; amount_paid := amount_paid p;
     balance := balance p; status := Some v |}.

(** The [useState] cells of [InvoiceForm]. *)
Record FormState := {
  invoice : PartialInvoice;
  availableMemos : list MemoData;
  allMemos : gmap string MemoData;
  customers : list Customer.t;
  isLoading : bool;
  isSaving : bool;
}.

Definition set_invoice (f : PartialInvoice → PartialInvoice) (s : FormState) : FormState :=
  {| invoice := f (invoice s); availableMemos := availableMemos s;
     allMemos := allMemos s; customers := customers s;
     isLoading := isLoading s; isSaving := isSaving s |}.

Definition set_availableMemos (v : list MemoData) (s : FormState) : FormState :=
  {| invoice := invoice s; availableMemos := v;
     allMemos := allMemos s; customers := customers s;
     isLoading := isLoading s; isSaving := isSaving s |}.

Definition set_allMemos (v : gmap string MemoData) (s : FormState) : FormState :=
  {| invoice := invoice s; availableMemos := availableMemos s;
     allMemos := v; customers := customers s;
     isLoading := isLoading s; isSaving := isSaving s |}.

Definition set_customers (v : list Customer.t) (s : FormState) : FormState :=
  {| invoice := invoice s; availableMemos := availableMemos s;
     allMemos := allMemos s; customers := v;
     isLoading := isLoading s; isSaving := isSaving s |}.

Definition set_isLoading (v : bool) (s : FormState) : FormState :=
  {| invoice := invoice s; availableMemos := availableMemos s;
     allMemos := allMemos s; customers := customers s;
     isLoading := v; isSaving := isSaving s |}.

Definition set_isSaving (v : bool) (s : FormState) : FormState :=
  {| invoice := invoice s; availableMemos := availableMemos s;
     allMemos := allMemos s; customers := customers s;
     isLoading := isLoading s; isSaving := v |}.

(** ** [calculateTotals] (NewTripForm.tsx, lines 40-54) *)

(** [parseFloat(memo?.trips_total_amt || '0')] for [memo = allMemos.get(memoNo)]. *)
Definition memo_amount (lookup : gmap string MemoData) (memoNo : string) : number :=
  parseFloat (str_or (trips_total_amt <$> lookup !! memoNo) "0").

(** [invoice.memo_nos?.reduce((sum, memoNo) => sum + ..., 0) || 0] *)
Definition reduce_total (lookup : gmap string MemoData) (nos : option (list string))
  : number :=
  num_or (foldl (λ sum memoNo, add sum (memo_amount lookup memoNo)) zero <$> nos) zero.

Definition calculateTotals (s : FormState) : FormState :=
  let total := reduce_total (allMemos s) (memo_nos (invoice s)) in
  let amountPaid := num_or (amount_paid (invoice s)) zero in
  let balance := sub total amountPaid in
  set_invoice (with_totals total balance) s.

(** ** The service layer

    [services/googleScriptMock] is not part of the sources.  A promise
    returned by a service is modelled by the value it settles with; a
    [Services] record fixes, for one session of the form, what every call
    settles with. *)
Inductive Settled (A : Type) := Resolved (a : A) | Rejected.
Global Arguments Resolved {A} a.
Global Arguments Rejected {A}.

Record Services := {
  getCustomers : Settled (list Customer.t);
  getMemos : Settled (list MemoData);
  getInvoices : Settled (list Invoice.t);
  (** resolves with [undefined] ([None]) when there is no such invoice *)
  getInvoiceById : Z → Settled (option Invoice.t);
  getUninvoicedMemosForCustomer : string → Settled (list MemoData);
  generateNewInvoiceNumber : Settled string;
  addInvoice : PartialInvoice → Settled unit;
  updateInvoice : PartialInvoice → Settled unit;
  deleteMemo : string → Settled unit;
}.

Inductive ServiceCall :=
| GetCustomers
| GetMemos
| GetInvoices
| GetInvoiceById (invoiceId : Z)
| GetUninvoicedMemosForCustomer (customerName : string)
| GenerateNewInvoiceNumber
| AddInvoice (draft : PartialInvoice)
| UpdateInvoice (inv : PartialInvoice)
| DeleteMemo (memoNo : string).

Inductive ToastKind := success | error.

(** What a handler does besides updating the component state. *)
Inductive Action :=
| Call (c : ServiceCall)
| Toast (message : string) (kind : ToastKind)
| OnSaveSuccess
| OnCancel
| OnEditMemo (memoNo : string)
| OnDownloadMemo (memoNo : string).

(** A store write is a call that creates, updates or deletes. *)
Definition is_store_write (a : Action) : bool :=
  match a with
  | Call (AddInvoice _) | Call (UpdateInvoice _) | Call (DeleteMemo _) => true
  | _ => false
  end.

Definition is_store_call (a : Action) : bool :=
  match a with Call _ => true | _ => false end.

(** ** Mounting and [loadInitialData] (lines 32-37 and 60-92) *)

(** The state of the first render, after the mount run of the
    [calculateTotals] effect. *)
Definition mount (today : string) : FormState :=
  calculateTotals
    {| invoice := initialInvoiceState today; availableMemos := [];
       allMemos := ∅; customers := []; isLoading := true; isSaving := false |}.

(** [memosData.forEach(memo => memosMap.set(memo.trips_memo_no, memo))] *)
Definition memosMap (memosData : list MemoData) : gmap string MemoData :=
  foldl (λ m memo, <[trips_memo_no memo := memo]> m) ∅ memosData.

Definition load_failed : list Action := [Toast "Failed to load initial data." error].

(** The [calculateTotals] effect re-runs when one of its dependencies
    ([invoice.memo_nos], [invoice.amount_paid], [allMemos]) is replaced:
    after [setAllMemos] (a new map) and after [setInvoice(loadedInvoice)]
    (a new object from the service).  [{...initialInvoiceState, ...}]
    carries the constant's own [memo_nos] and [amount_paid]; see
    [calculateTotals_new_invoice] for why it does not matter whether the
    effect runs there. *)
Definition loadInitialData (svc : Services) (today : string)
    (invoiceIdToLoad : option Z) (s : FormState) : FormState * list Action :=
  let s := set_isLoading true s in
  let '(s, log) :=
    match getCustomers svc, getMemos svc with
    | Resolved customersData, Resolved memosData =>
      let s := set_customers customersData s in
      let s := calculateTotals (set_allMemos (memosMap memosData) s) in
      match invoiceIdToLoad with
      | Some invoiceId =>
        if id_truthy invoiceId then
          match getInvoiceById svc invoiceId with
          | Resolved (Some loadedInvoice) =>
            let s := calculateTotals (set_invoice (λ _, of_invoice loadedInvoice) s) in
            let call := GetUninvoicedMemosForCustomer (Invoice.customer_name loadedInvoice) in
            match getUninvoicedMemosForCustomer svc (Invoice.customer_name loadedInvoice) with
            | Resolved uninvoicedMemos =>
              (set_availableMemos uninvoicedMemos s,
               [Call (GetInvoiceById invoiceId); Call call])
            | Rejected =>
              (s, [Call (GetInvoiceById invoiceId); Call call] ++ load_failed)
            end
          | Resolved None =>
            (s, [Call (GetInvoiceById invoiceId); Toast "Invoice not found." error; OnCancel])
          | Rejected => (s, Call (GetInvoiceById invoiceId) :: load_failed)
          end
        else
          match generateNewInvoiceNumber svc with
          | Resolved newInvoiceNo =>
            (set_invoice (λ _, with_invoice_no newInvoiceNo (initialInvoiceState today)) s,
             [Call GenerateNewInvoiceNumber])
          | Rejected => (s, Call GenerateNewInvoiceNumber :: load_failed)
          end
      | None =>
        match generateNewInvoiceNumber svc with
        | Resolved newInvoiceNo =>
          (set_invoice (λ _, with_invoice_no newInvoiceNo (initialInvoiceState today)) s,
           [Call GenerateNewInvoiceNumber])
        | Rejected => (s, Call GenerateNewInvoiceNumber :: load_failed)
        end
      end
    | _, _ => (s, load_failed)
    end in
  (set_isLoading false s, Call GetCustomers :: Call GetMemos :: log).

(** ** The handlers (lines 116-157, 181, 236, 249) *)

(** [handleCustomerChange]; the single [await] is taken to settle before
    the next event. *)
Definition handleCustomerChange (svc : Services) (customerName : string)
    (s : FormState) : FormState * list Action :=
  if opt_id_truthy (id (invoice s)) then (s, [])
  else
    let s := set_invoice (with_customer customerName []) s in
    if str_truthy customerName then
      match getUninvoicedMemosForCustomer svc customerName with
      | Resolved memos =>
        (set_availableMemos memos s,
         [Call (GetUninvoicedMemosForCustomer customerName)])
      | Rejected => (s, [Call (GetUninvoicedMemosForCustomer customerName)])
      end
    else (set_availableMemos [] s, []).

Definition handleMemoSelection (memoNo : string) (isSelected : bool)
    (s : FormState) : FormState :=
  set_invoice (λ prev,
    let currentMemos := default [] (memo_nos prev) in
    let newMemos :=
      if isSelected then currentMemos ++ [memoNo]
      else filter (λ m, m ≠ memoNo) currentMemos in
    with_memo_nos newMemos prev) s.

(** [onChange] of the amount-paid input:
    [setInvoice(p => ({...p, amount_paid: parseFloat(e.target.value) || 0}))] *)
Definition setAmountPaid (value : string) (s : FormState) : FormState :=
  set_invoice (with_amount_paid (num_or (Some (parseFloat value)) zero)) s.

Definition save_invalid : list Action :=
  [Toast "Please select a customer, date, and at least one memo." error].

Definition handleSave (svc : Services) (s : FormState) : FormState * list Action :=
  let inv := invoice s in
  if negb (opt_str_truthy (customer_name inv))
     || negb (opt_str_truthy (invoice_date inv))
     || (length (default [] (memo_nos inv)) =? 0)%nat
  then (s, save_invalid)
  else
    let s := set_isSaving true s in
    let log :=
      if opt_id_truthy (id inv) then
        Call (UpdateInvoice inv) ::
        match updateInvoice svc inv with
        | Resolved _ => [Toast "Invoice updated successfully!" success; OnSaveSuccess]
        | Rejected => [Toast "Failed to save invoice." error]
        end
      else
        Call (AddInvoice inv) ::
        match addInvoice svc inv with
        | Resolved _ => [Toast "Invoice created successfully!" success; OnSaveSuccess]
        | Rejected => [Toast "Failed to save invoice." error]
        end in
    (set_isSaving false s, log).

(** ** What is rendered (lines 161-169 and 213) *)

Definition has_memo_no (memoNo : string) (m : MemoData) : bool :=
  bool_decide (trips_memo_no m = memoNo).

(** One round of the [forEach] at lines 163-168. *)
Definition push_linked (lookup : gmap string MemoData)
    (acc : list MemoData) (memoNo : string) : list MemoData :=
  if existsb (has_memo_no memoNo) acc then acc
  else match lookup !! memoNo with
       | Some memo => acc ++ [memo]
       | None => acc
       end.

Definition displayMemos (s : FormState) : list MemoData :=
  if opt_id_truthy (id (invoice s)) then
    match memo_nos (invoice s) with
    | Some nos => foldl (push_linked (allMemos s)) (availableMemos s) nos
    | None => availableMemos s
    end
  else availableMemos s.

(** [checked={invoice.memo_nos?.includes(memo.trips_memo_no)}] *)
Definition checked (s : FormState) (memo : MemoData) : bool :=
  match memo_nos (invoice s) with
  | Some nos => bool_decide (trips_memo_no memo ∈ nos)
  | None => false
  end.

(** ** Events of the rendered form, and the effect that follows them *)

Inductive Event :=
| ChangeDate (value : string)
| ChangeCustomer (customerName : string)
| ToggleMemo (memoNo : string) (isSelected : bool)
| ChangeStatus (value : InvoiceStatus)
| ChangeAmountPaid (value : string).

Definition handle (svc : Services) (ev : Event) (s : FormState)
  : FormState * list Action :=
  match ev with
  | ChangeDate v => (set_invoice (with_invoice_date v) s, [])
  | ChangeCustomer name => handleCustomerChange svc name s
  | ToggleMemo memoNo isSelected => (handleMemoSelection memoNo isSelected s, [])
  | ChangeStatus v => (set_invoice (with_status v) s, [])
  | ChangeAmountPaid v => (setAmountPaid v s, [])
  end.

(** Does the handler put a new array into [invoice.memo_nos]?  A spread
    [{...p, f: v}] keeps the reference it copies; [[...xs, x]], [filter]
    and the literal [[]] allocate. *)
Definition replaces_memo_nos (ev : Event) (s : FormState) : bool :=
  match ev with
  | ToggleMemo _ _ => true
  | ChangeCustomer _ => negb (opt_id_truthy (id (invoice s)))
  | _ => false
  end.

(** [useCallback]/[useEffect] at lines 40-58: the dependencies of
    [calculateTotals] are compared with [Object.is]; none of the events
    replaces [allMemos]. *)
Definition deps_changed (ev : Event) (s s' : FormState) : bool :=
  replaces_memo_nos ev s
  || negb (bool_decide (amount_paid (invoice s) = amount_paid (invoice s'))).

Definition dispatch (svc : Services) (ev : Event) (s : FormState)
  : FormState * list Action :=
  let '(s', log) := handle svc ev s in
  (if deps_changed ev s s' then calculateTotals s' else s', log).

(** The events the rendered rows and inputs can produce: a checkbox exists
    for the displayed memos only, and clicking it inverts it. *)
Inductive enabled (s : FormState) : Event → Prop :=
| enabled_date v : enabled s (ChangeDate v)
| enabled_customer name : enabled s (ChangeCustomer name)
| enabled_toggle memo :
    memo ∈ displayMemos s →
    enabled s (ToggleMemo (trips_memo_no memo) (negb (checked s memo)))
| enabled_status v : enabled s (ChangeStatus v)
| enabled_amount v : enabled s (ChangeAmountPaid v).

(** The states the form goes through between renders. *)
Inductive reachable (svc : Services) (today : string) (invoiceIdToLoad : option Z)
  : FormState → Prop :=
| reachable_loaded :
    reachable svc today invoiceIdToLoad
      (loadInitialData svc today invoiceIdToLoad (mount today)).1
| reachable_event s ev :
    reachable svc today invoiceIdToLoad s →
    enabled s ev →
    reachable svc today invoiceIdToLoad (dispatch svc ev s).1
| reachable_save s :
    reachable svc today invoiceIdToLoad s →
    reachable svc today invoiceIdToLoad (handleSave svc s).1.
End model.

(** ** The memo list ([MemoCRUD], src/unnamed/part_001) *)
Module MemoCRUD.
Section defs.
Context `{JsNumber}.

(** [memoData.sort((a, b) => b.trips_memo_no.localeCompare(a.trips_memo_no))]:
    the platform's sort with a locale-dependent comparator. *)
Variable sortByMemoNoDesc : list MemoData → list MemoData.

Record State := {
  memos : list MemoData;
  invoiceMap : gmap string string;
  isLoading : bool;
  isDeleteConfirmOpen : bool;
  memoToDelete : option MemoData;
  isSubmitting : bool;
}.

Definition initial : State :=
  {| memos := []; invoiceMap := ∅; isLoading := true;
     isDeleteConfirmOpen := false; memoToDelete := None; isSubmitting := false |}.

(** Lines 32-37: later invoices overwrite earlier ones. *)
Definition newInvoiceMap (invoiceData : list Invoice.t) : gmap string string :=
  foldl (λ m invoice,
           foldl (λ m memoNo, <[memoNo := Invoice.invoice_no invoice]> m)
                 m (Invoice.memo_nos invoice))
        ∅ invoiceData.

Definition fetch_failed : list Action :=
  [Toast "Failed to fetch memo and invoice data." error].

Definition fetchData (svc : Services) (s : State) : State * list Action :=
  match getMemos svc, getInvoices svc with
  | Resolved memoData, Resolved invoiceData =>
    ({| memos := sortByMemoNoDesc memoData;
        invoiceMap := newInvoiceMap invoiceData;
        isLoading := false;
        isDeleteConfirmOpen := isDeleteConfirmOpen s;
        memoToDelete := memoToDelete s;
        isSubmitting := isSubmitting s |},
     [Call GetMemos; Call GetInvoices])
  | _, _ =>
    ({| memos := memos s; invoiceMap := invoiceMap s; isLoading := false;
        isDeleteConfirmOpen := isDeleteConfirmOpen s;
        memoToDelete := memoToDelete s;
        isSubmitting := isSubmitting s |},
     [Call GetMemos; Call GetInvoices] ++ fetch_failed)
  end.

(** The per-memo part of the table body (lines 118-166). *)
Record Row := {
  isInvoiced : bool;
  statusBadge : string;
  editDisabled : bool;
  editTitle : string;
  deleteDisabled : bool;
  deleteTitle : string;
}.

Definition renderRow (s : State) (memo : MemoData) : Row :=
  let invoiceNo := invoiceMap s !! trips_memo_no memo in
  let isInvoiced := opt_str_truthy invoiceNo in
  {| isInvoiced := isInvoiced;
     statusBadge := if isInvoiced then default "" invoiceNo else "Uninvoiced";
     editDisabled := isInvoiced;
     editTitle := if isInvoiced
                  then "Cannot edit a memo that is part of an invoice."
                  else "Edit Memo";
     deleteDisabled := isInvoiced;
     deleteTitle := if isInvoiced
                    then "Cannot delete a memo that is part of an invoice."
                    else "Delete Memo" |}.

Definition openDeleteConfirmation (memo : MemoData) (s : State) : State :=
  {| memos := memos s; invoiceMap := invoiceMap s; isLoading := isLoading s;
     isDeleteConfirmOpen := true; memoToDelete := Some memo;
     isSubmitting := isSubmitting s |}.

Definition closeDeleteConfirmation (s : State) : State :=
  {| memos := memos s; invoiceMap := invoiceMap s; isLoading := isLoading s;
     isDeleteConfirmOpen := false; memoToDelete := None;
     isSubmitting := isSubmitting s |}.

Definition setIsSubmitting (v : bool) (s : State) : State :=
  {| memos := memos s; invoiceMap := invoiceMap s; isLoading := isLoading s;
     isDeleteConfirmOpen := isDeleteConfirmOpen s;
     memoToDelete := memoToDelete s; isSubmitting := v |}.

(** A click on a [disabled] button dispatches nothing. *)
Definition clickEdit (s : State) (memo : MemoData) : State * list Action :=
  if editDisabled (renderRow s memo) then (s, [])
  else (s, [OnEditMemo (trips_memo_no memo)]).

Definition clickDelete (s : State) (memo : MemoData) : State * list Action :=
  if deleteDisabled (renderRow s memo) then (s, [])
  else (openDeleteConfirmation memo s, []).

(** [handleDelete], the confirm button of the modal. *)
Definition handleDelete (svc : Services) (s : State) : State * list Action :=
  match memoToDelete s with
  | Some memo =>
    let call := Call (DeleteMemo (trips_memo_no memo)) in
    match deleteMemo svc (trips_memo_no memo) with
    | Resolved _ =>
      let '(s', log) := fetchData svc s in
      (closeDeleteConfirmation (setIsSubmitting false s'),
       call :: Toast "Memo deleted successfully" success :: log)
    | Rejected =>
      (closeDeleteConfirmation (setIsSubmitting false s),
       [call; Toast "Failed to delete memo" error])
    end
  | None => (s, [])
  end.
End defs.
End MemoCRUD.

(** ** The print coordinator (the effect at NewTripForm.tsx, lines 94-114)

    The browser side of the effect is a window with its [afterprint]
    listeners and its pending timers.  Which pending timer expires next and
    when the print-finished signal arrives is up to the environment, so both
    are events.  The effect's dependencies ([isLoading], [printOnLoad],
    [onPrinted]) stay as they are once loading is over ([App] memoises the
    element it renders), so the effect body runs once and its cleanup runs
    when the component is unmounted. *)
Module PrintCoordinator.
Inductive Listener := handleAfterPrint.

(** The two timer callbacks of the effect. *)
Inductive Task :=
| printTask      (** [() => { window.print(); }] *)
| printedTask.   (** [() => { if (onPrinted) onPrinted(); }] *)

Global Instance Listener_eq_dec : EqDecision Listener.
Proof. solve_decision. Defined.
Global Instance Task_eq_dec : EqDecision Task.
Proof. solve_decision. Defined.

Record Timer := { timerId : nat; delay : nat; task : Task }.

(** What can be observed from outside. *)
Inductive Obs :=
| PrintInvoked   (** [window.print()] was called *)
| Printed        (** the [onPrinted] prop was called *)
| TornDown.      (** the effect's cleanup has run *)

Global Instance Obs_eq_dec : EqDecision Obs.
Proof. solve_decision. Defined.

Record Window := {
  listeners : list Listener;
  timers : list Timer;
  nextTimer : nat;
  trace : list Obs;
}.

Definition fresh : Window :=
  {| listeners := []; timers := []; nextTimer := 0; trace := [] |}.

Definition addEventListener (l : Listener) (w : Window) : Window :=
  {| listeners := if bool_decide (l ∈ listeners w) then listeners w
                  else listeners w ++ [l];
     timers := timers w; nextTimer := nextTimer w; trace := trace w |}.

Definition removeEventListener (l : Listener) (w : Window) : Window :=
  {| listeners := filter (λ l', l' ≠ l) (listeners w);
     timers := timers w; nextTimer := nextTimer w; trace := trace w |}.

Definition setTimeout (t : Task) (ms : nat) (w : Window) : nat * Window :=
  (nextTimer w,
   {| listeners := listeners w;
      timers := timers w ++ [{| timerId := nextTimer w; delay := ms; task := t |}];
      nextTimer := S (nextTimer w); trace := trace w |}).

Definition clearTimeout (i : nat) (w : Window) : Window :=
  {| listeners := listeners w;
     timers := filter (λ t, timerId t ≠ i) (timers w);
     nextTimer := nextTimer w; trace := trace w |}.

Definition observe (o : Obs) (w : Window) : Window :=
  {| listeners := listeners w; timers := timers w;
     nextTimer := nextTimer w; trace := trace w ++ [o] |}.

(** The effect body.  It returns the cleanup's captured [printTimer], or
    [None] when the effect registers nothing. *)
Definition effect (isLoading printOnLoad : bool) (w : Window) : Window * option nat :=
  if negb isLoading && printOnLoad then
    let w := addEventListener handleAfterPrint w in
    let '(printTimer, w) := setTimeout printTask 300 w in
    (w, Some printTimer)
  else (w, None).

Definition cleanup (c : option nat) (w : Window) : Window :=
  match c with
  | Some printTimer =>
    observe TornDown
      (removeEventListener handleAfterPrint (clearTimeout printTimer w))
  | None => observe TornDown w
  end.

Definition runListener (l : Listener) (w : Window) : Window :=
  match l with
  | handleAfterPrint =>
    (setTimeout printedTask 100 (removeEventListener handleAfterPrint w)).2
  end.

(** [onPrinted] defaults to [() => {}] and [App] always passes a function,
    so the guard in [printedTask] always holds. *)
Definition runTask (t : Task) (w : Window) : Window :=
  match t with
  | printTask => observe PrintInvoked w
  | printedTask => observe Printed w
  end.

Inductive Event :=
| AfterPrint                (** the platform's print-finished signal *)
| TimerFires (i : nat)      (** the pending timer [i] expires *)
| Unmount.                  (** the component is torn down *)

Global Instance Event_eq_dec : EqDecision Event.
Proof. solve_decision. Defined.

Definition fire (i : nat) (w : Window) : Window :=
  match list_find (λ t, timerId t = i) (timers w) with
  | Some (_, t) => runTask (task t) (clearTimeout i w)
  | None => w
  end.

(** The signal calls the listeners registered when it is dispatched. *)
Definition step (c : option nat) (w : Window) (ev : Event) : Window :=
  match ev with
  | AfterPrint => foldl (λ w l, runListener l w) w (listeners w)
  | TimerFires i => fire i w
  | Unmount => cleanup c w
  end.

Definition run (c : option nat) (evs : list Event) (w : Window) : Window :=
  foldl (step c) w evs.

(** Let every timer that is still pending expire. *)
Definition settle (w : Window) : Window :=
  foldl (λ w t, fire (timerId t) w) w (timers w).

Definition count (o : Obs) (w : Window) : nat :=
  length (filter (λ o', o' = o) (trace w)).

(** [Printed] observed after [TornDown]. *)
Fixpoint printed_after_teardown (tr : list Obs) : bool :=
  match tr with
  | [] => false
  | TornDown :: tr' => bool_decide (Printed ∈ tr') || printed_after_teardown tr'
  | _ :: tr' => printed_after_teardown tr'
  end.

(** The window of a form opened in download mode, once loading is over. *)
Definition download_mode : Window * option nat := effect false true fresh.

(** *** Bookkeeping of the completion callback *)

(** Timers whose callback will call [onPrinted]. *)
Definition pending (w : Window) : nat :=
  length (filter (λ t, task t = printedTask) (timers w)).

(** The listener is registered, or its delay timer is pending, or the
    callback has run: exactly one of the three, once. *)
Record coordinated (w : Window) : Prop := {
  one_token : length (listeners w) + pending w + count Printed w = 1;
  ids_unique : NoDup (timerId <$> timers w);
  ids_issued : Forall (λ t, timerId t < nextTimer w) (timers w);
}.

(** No delay timer is pending and the callback has not run. *)
Definition armed (w : Window) : Prop := pending w = 0 ∧ count Printed w = 0.
End PrintCoordinator.

(** ** The ledger behind the services *)
Section ledger.
Context `{JsNumber}.

Record Store := {
  store_memos : list MemoData;
  store_invoices : list Invoice.t;
  store_customers : list Customer.t;
}.

(** A memo number is linked when some persisted invoice lists it. *)
Definition linked (st : Store) (memoNo : string) : Prop :=
  Exists (λ i, memoNo ∈ Invoice.memo_nos i) (store_invoices st).

(** Modelled from the spec: [getUninvoicedMemosForCustomer] of
    [services/googleScriptMock], which is not part of the sources.  Spec,
    section 6: "listUninvoicedMemosForCustomer(customerName) -> Memo[],
    collaborator-side filter"; section 4.1: the memos belonging to that
    customer that are not currently linked to any invoice. *)
Definition uninvoicedMemosForCustomer (st : Store) (customerName : string)
  : list MemoData :=
  filter (λ m, customers_name m = customerName ∧ ¬ linked st (trips_memo_no m))
         (store_memos st).

(** Modelled from the spec: [getInvoiceById] of [services/googleScriptMock]
    (section 6: "getInvoiceById(id) -> Invoice | not-found"). *)
Definition invoiceById (st : Store) (invoiceId : Z) : option Invoice.t :=
  snd <$> list_find (λ i, Invoice.id i = invoiceId) (store_invoices st).

(** Modelled from the spec: the services of [services/googleScriptMock]
    over a ledger that answers every request (section 6).  The number a new
    invoice gets is [newInvoiceNo]. *)
Definition store_services (st : Store) (newInvoiceNo : string) : Services :=
  {| getCustomers := Resolved (store_customers st);
     getMemos := Resolved (store_memos st);
     getInvoices := Resolved (store_invoices st);
     getInvoiceById := λ invoiceId, Resolved (invoiceById st invoiceId);
     getUninvoicedMemosForCustomer := λ name, Resolved (uninvoicedMemosForCustomer st name);
     generateNewInvoiceNumber := Resolved newInvoiceNo;
     addInvoice := λ _, Resolved ();
     updateInvoice := λ _, Resolved ();
     deleteMemo := λ _, Resolved () |}.
End ledger.

(** ** The reconciliation rules as the specification words them *)
Section spec.
Context `{JsNumber}.

(** Spec, section 4.1, [computeTotals]: "total = sum of memo.total_amount
    for each number present in memoLookup (numbers missing from the lookup
    contribute zero)". *)
Definition spec_total (lookup : gmap string MemoData) (selected : list string)
  : number :=
  foldl (λ sum memoNo,
           add sum (match lookup !! memoNo with
                    | Some memo => parseFloat (trips_total_amt memo)
                    | None => zero
                    end))
        zero selected.

(** Spec, section 4.1, [validateForSave]: "ok | ValidationError
    {missingCustomer, missingDate, noMemosSelected}", failing fast. *)
Inductive ValidationError := missingCustomer | missingDate | noMemosSelected.

Definition validateForSave (draft : PartialInvoice) : option ValidationError :=
  if negb (opt_str_truthy (customer_name draft)) then Some missingCustomer
  else if negb (opt_str_truthy (invoice_date draft)) then Some missingDate
  else if (length (default [] (memo_nos draft)) =? 0)%nat then Some noMemosSelected
  else None.
End spec.

(** ** A decimal instance of [JsNumber]

    Finite numbers are exact fractions, always kept in lowest terms, so
    that equal numbers are equal terms; rounding and the negative zero are
    left out.  [NaN] and the infinities behave as in JavaScript.
    [parseDecimal] follows the grammar of [parseFloat] (leading white space,
    sign, [Infinity] or digits with an optional fraction and exponent, the
    longest such prefix; [NaN] when there is none). *)
Module JsDecimal.
Inductive num := Fin (q : Q) | PInf | NInf | NaN.

Global Instance Q_eq_dec : EqDecision Q.
Proof. solve_decision. Defined.
Global Instance num_eq_dec : EqDecision num.
Proof. solve_decision. Defined.

Definition of_Z (z : Z) : num := Fin (inject_Z z).

Definition plus (a b : num) : num :=
  match a, b with
  | NaN, _ | _, NaN => NaN
  | PInf, NInf | NInf, PInf => NaN
  | PInf, _ | _, PInf => PInf
  | NInf, _ | _, NInf => NInf
  | Fin x, Fin y => Fin (Qred (x + y))
  end.

Definition opp (a : num) : num :=
  match a with
  | Fin x => Fin (Qred (- x))
  | PInf => NInf
  | NInf => PInf
  | NaN => NaN
  end.

Definition minus (a b : num) : num := plus a (opp b).

Definition to_bool (a : num) : bool :=
  match a with
  | Fin x => negb (Qnum x =? 0)%Z
  | PInf | NInf => true
  | NaN => false
  end.

(** [a < 0] *)
Definition negative (a : num) : bool :=
  match a with
  | Fin x => (Qnum x <? 0)%Z
  | NInf => true
  | PInf | NaN => false
  end.

Definition is_space (c : ascii) : bool :=
  match c with
  | " " | "009" | "010" | "011" | "012" | "013" => true
  | _ => false
  end%char.

(** The position of [c] in [s], counted from [i]. *)
Fixpoint position (c : ascii) (s : string) (i : Z) : option Z :=
  match s with
  | String d s' => if Ascii.eqb c d then Some i else position c s' (i + 1)%Z
  | EmptyString => None
  end.

Definition digit (c : ascii) : option Z := position c "0123456789" 0.

Fixpoint skip_spaces (s : string) : string :=
  match s with
  | String c s' => if is_space c then skip_spaces s' else s
  | EmptyString => s
  end.

(** The digits at the head of [s]: their value on top of [acc], how many
    there are, and what follows them. *)
Fixpoint digits (s : string) (acc : Z) (n : nat) : Z * nat * string :=
  match s with
  | String c s' =>
    match digit c with
    | Some d => digits s' (10 * acc + d)%Z (S n)
    | None => (acc, n, s)
    end
  | EmptyString => (acc, n, s)
  end.

Definition sign (s : string) : bool * string :=
  match s with
  | String "-" s' => (true, s')
  | String "+" s' => (false, s')
  | _ => (false, s)
  end.

Definition exponent (s : string) : Z :=
  match s with
  | String c s' =>
    if match c with "e" | "E" => true | _ => false end%char then
      let '(neg, s'') := sign s' in
      let '(e, n, _) := digits s'' 0 0 in
      if (n =? 0)%nat then 0%Z else if neg then (- e)%Z else e
    else 0%Z
  | EmptyString => 0%Z
  end.

(** [m * 10^e] *)
Definition scale (m e : Z) : Q :=
  if (0 <=? e)%Z then inject_Z (m * 10 ^ e)
  else Qred (m # Z.to_pos (10 ^ (- e))).

Definition parseDecimal (s : string) : num :=
  let '(neg, s) := sign (skip_spaces s) in
  if String.prefix "Infinity" s then (if neg then NInf else PInf)
  else
    let '(ip, ni, s) := digits s 0 0 in
    let '(m, nf, s) :=
      match s with
      | String "." s' => let '(m, nf, s'') := digits s' ip 0 in (m, nf, s'')
      | _ => (ip, 0%nat, s)
      end in
    if (ni + nf =? 0)%nat then NaN
    else
      let e := (exponent s - Z.of_nat nf)%Z in
      Fin (scale (if neg then - m else m)%Z e).

Global Instance decimal : JsNumber :=
  {| number := num; zero := of_Z 0; add := plus; sub := minus;
     truthy := to_bool; parseFloat := parseDecimal;
     parseFloat_0 := eq_refl;
     truthy_zero := eq_refl;
     sub_zero_zero := eq_refl |}.
End JsDecimal.

(** ** Properties *)
Section properties.
Context `{JsNumber}.

(** What a selected number adds to the total: nothing when the lookup has
    no such memo or the memo's amount is the empty string. *)
Definition amount_or_zero (lookup : gmap string MemoData) (memoNo : string) : number :=
  match lookup !! memoNo with
  | Some memo =>
    if str_truthy (trips_total_amt memo) then parseFloat (trips_total_amt memo)
    else zero
  | None => zero
  end.

Definition selected_sum (lookup : gmap string MemoData) (selected : list string)
  : number :=
  foldl (λ sum memoNo, add sum (amount_or_zero lookup memoNo)) zero selected.

(** The totals shown are the ones [calculateTotals] derives from the
    current selection, lookup and amount paid. *)
Definition totals_settled (s : FormState) : Prop :=
  let total :=
    num_or (Some (selected_sum (allMemos s) (default [] (memo_nos (invoice s))))) zero in
  total_amount (invoice s) = Some total
  ∧ balance (invoice s) = Some (sub total (num_or (amount_paid (invoice s)) zero)).

(** The call a save makes for the draft: update with an identifier,
    create without. *)
Definition save_outcome (svc : Services) (draft : PartialInvoice) : Settled unit :=
  if opt_id_truthy (id draft) then updateInvoice svc draft else addInvoice svc draft.

(** What the memo table is rendered from.  [calculateTotals] and the
    loading and saving flags leave it alone. *)
Definition same_rows (s s' : FormState) : Prop :=
  availableMemos s' = availableMemos s
  ∧ allMemos s' = allMemos s
  ∧ memo_nos (invoice s') = memo_nos (invoice s)
  ∧ id (invoice s') = id (invoice s).

(** The lookup built by [loadInitialData] is keyed by the memo number. *)
Definition keyed (lookup : gmap string MemoData) : Prop :=
  ∀ k m, lookup !! k = Some m → trips_memo_no m = k.



End properties.

Global Instance MemoData_eq_dec : EqDecision MemoData.
Proof. solve_decision. Defined.

(** ** A concrete ledger: the scenario of the specification's section 8 *)
Module Scenario.
Import JsDecimal.

Definition memo (no customer amount : string) : MemoData :=
  {| trips_memo_no := no; customers_name := customer;
     trip_operated_date1 := "2024-01-05"; trips_vehicle_no := "TN 01 AB 1234";
     trips_total_amt := amount; trips_balance := amount |}.

Definition M1 := memo "M1" "Acme" "500".
Definition M2 := memo "M2" "Acme" "300".
(** a memo whose amount was never filled in with a number *)
Definition M3 := memo "M3" "Acme" "N/A".

Definition acme : Store :=
  {| store_memos := [M1; M2; M3];
     store_invoices := [];
     store_customers := [ {| Customer.customers_name := "Acme" |} ] |}.

Definition svc : Services := store_services acme "INV-001".
Definition today : string := "2024-01-06".

(** Run a list of events from the state the form opens in. *)
Definition play (svc : Services) (invoiceIdToLoad : option Z) (evs : list Event)
  : FormState :=
  foldl (λ s ev, (dispatch svc ev s).1)
        (loadInitialData svc today invoiceIdToLoad (mount today)).1 evs.

(** create, pick the customer, select M1 and M2, pay 200 *)
Definition paid_200 : FormState :=
  play svc None [ChangeCustomer "Acme"; ToggleMemo "M1" true;
                 ToggleMemo "M2" true; ChangeAmountPaid "200"].

(** create, pick the customer, select M1 and M3 *)
Definition with_M3 : FormState :=
  play svc None [ChangeCustomer "Acme"; ToggleMemo "M1" true; ToggleMemo "M3" true].

(** create, and nothing else: no customer yet *)
Definition opened : FormState := play svc None [].

(** create and pick the customer: nothing selected yet *)
Definition customer_only : FormState := play svc None [ChangeCustomer "Acme"].

(** create, pick the customer, select M1 *)
Definition one_selected : FormState :=
  play svc None [ChangeCustomer "Acme"; ToggleMemo "M1" true].

(** the ledger once M1 has been billed on invoice 7 *)
Definition INV7 : Invoice.t :=
  {| Invoice.id := 7; Invoice.invoice_no := "INV-007";
     Invoice.invoice_date := "2024-01-06"; Invoice.customer_name := "Acme";
     Invoice.memo_nos := ["M1"];
     Invoice.total_amount := of_Z 500; Invoice.amount_paid := of_Z 0;
     Invoice.balance := of_Z 500; Invoice.status := Finalized |}.

Definition billed : Store :=
  {| store_memos := [M1; M2; M3];
     store_invoices := [INV7];
     store_customers := [ {| Customer.customers_name := "Acme" |} ] |}.

Definition billed_svc : Services := store_services billed "INV-008".


(** invoice 7, opened for editing *)
Definition editing_INV7 : FormState := play billed_svc (Some 7%Z) [].

(** the ledger once M2 has been billed on an invoice that was saved
    without an invoice number *)
Definition unnumbered : Invoice.t :=
  {| Invoice.id := 9; Invoice.invoice_no := "";
     Invoice.invoice_date := "2024-01-06"; Invoice.customer_name := "Acme";
     Invoice.memo_nos := ["M2"];
     Invoice.total_amount := of_Z 300; Invoice.amount_paid := of_Z 0;
     Invoice.balance := of_Z 300; Invoice.status := Draft |}.

Definition billed_unnumbered : Store :=
  {| store_memos := [M1; M2; M3];
     store_invoices := [INV7; unnumbered];
     store_customers := [ {| Customer.customers_name := "Acme" |} ] |}.

(** the memo list over that ledger, once fetched *)
Definition memo_list : MemoCRUD.State :=
  (MemoCRUD.fetchData (λ l, l) (store_services billed_unnumbered "INV-010")
                      MemoCRUD.initial).1.

(** the ledger when it cannot generate an invoice number *)
Definition svc_no_number : Services :=
  {| getCustomers := getCustomers svc;
     getMemos := getMemos svc;
     getInvoices := getInvoices svc;
     getInvoiceById := getInvoiceById svc;
     getUninvoicedMemosForCustomer := getUninvoicedMemosForCustomer svc;
     generateNewInvoiceNumber := Rejected;
     addInvoice := addInvoice svc;
     updateInvoice := updateInvoice svc;
     deleteMemo := deleteMemo svc |}.

(** the same ledger when it refuses to create invoices *)
Definition svc_down : Services :=
  {| getCustomers := getCustomers svc;
     getMemos := getMemos svc;
     getInvoices := getInvoices svc;
     getInvoiceById := getInvoiceById svc;
     getUninvoicedMemosForCustomer := getUninvoicedMemosForCustomer svc;
     generateNewInvoiceNumber := generateNewInvoiceNumber svc;
     addInvoice := λ _, Rejected;
     updateInvoice := updateInvoice svc;
     deleteMemo := deleteMemo svc |}.
End Scenario.

(** ** More of the invoice form: the printed rows (lines 171-173, 302-309) *)
Section printed.
Context `{JsNumber}.

(** [(invoice.memo_nos || []).map(memoNo => allMemos.get(memoNo))
      .filter(memo => memo !== undefined)] *)
Definition selectedMemosDetails (s : FormState) : list MemoData :=
  omap (λ memoNo, allMemos s !! memoNo) (default [] (memo_nos (invoice s))).

Definition is_toast (a : Action) : bool :=
  match a with Toast _ _ => true | _ => false end.
End printed.

(** ** The invoice list ([InvoiceCRUD], src/components/LocationsCRUD.tsx) *)
Module InvoiceCRUD.
Section defs.
Context `{JsNumber}.

(** [data.sort((a, b) => b.invoice_no.localeCompare(a.invoice_no))] *)
Variable sortByInvoiceNoDesc : list Invoice.t → list Invoice.t.

(** [deleteInvoice] of the service layer: what the call settles with. *)
Variable deleteInvoice : Z → Settled unit.

Record State := {
  invoices : list Invoice.t;
  isLoading : bool;
  isSubmitting : bool;
  isDeleteConfirmOpen : bool;
  invoiceToDelete : option Invoice.t;
}.

Definition initial : State :=
  {| invoices := []; isLoading := true; isSubmitting := false;
     isDeleteConfirmOpen := false; invoiceToDelete := None |}.

(** What the component does besides updating its state. *)
Inductive Act :=
| CallGetInvoices
| CallDeleteInvoice (invoiceId : Z)
| Notice (message : string) (kind : ToastKind)
| OnEditInvoice (invoiceId : Z)
| OnCreateInvoice
| OnDownloadInvoice (invoiceId : Z).

Definition fetchData (svc : Services) (s : State) : State * list Act :=
  match getInvoices svc with
  | Resolved data =>
    ({| invoices := sortByInvoiceNoDesc data; isLoading := false;
        isSubmitting := isSubmitting s;
        isDeleteConfirmOpen := isDeleteConfirmOpen s;
        invoiceToDelete := invoiceToDelete s |},
     [CallGetInvoices])
  | Rejected =>
    ({| invoices := invoices s; isLoading := false;
        isSubmitting := isSubmitting s;
        isDeleteConfirmOpen := isDeleteConfirmOpen s;
        invoiceToDelete := invoiceToDelete s |},
     [CallGetInvoices; Notice "Failed to fetch invoices." error])
  end.

Definition openDeleteConfirmation (invoice : Invoice.t) (s : State) : State :=
  {| invoices := invoices s; isLoading := isLoading s; isSubmitting := isSubmitting s;
     isDeleteConfirmOpen := true; invoiceToDelete := Some invoice |}.

Definition closeDeleteConfirmation (s : State) : State :=
  {| invoices := invoices s; isLoading := isLoading s; isSubmitting := isSubmitting s;
     isDeleteConfirmOpen := false; invoiceToDelete := None |}.

Definition setIsSubmitting (v : bool) (s : State) : State :=
  {| invoices := invoices s; isLoading := isLoading s; isSubmitting := v;
     isDeleteConfirmOpen := isDeleteConfirmOpen s;
     invoiceToDelete := invoiceToDelete s |}.

(** [handleDelete]: guarded by [if (invoiceToDelete?.id)]. *)
Definition handleDelete (svc : Services) (s : State) : State * list Act :=
  match invoiceToDelete s with
  | Some invoice =>
    if id_truthy (Invoice.id invoice) then
      match deleteInvoice (Invoice.id invoice) with
      | Resolved _ =>
        let '(s', log) := fetchData svc s in
        (closeDeleteConfirmation (setIsSubmitting false s'),
         CallDeleteInvoice (Invoice.id invoice)
           :: Notice "Invoice deleted successfully" success :: log)
      | Rejected =>
        (closeDeleteConfirmation (setIsSubmitting false s),
         [CallDeleteInvoice (Invoice.id invoice);
          Notice "Failed to delete invoice" error])
      end
    else (s, [])
  | None => (s, [])
  end.

(** The three buttons of an invoice card (lines 143-151). *)
Definition clickDownload (invoice : Invoice.t) : list Act :=
  [OnDownloadInvoice (Invoice.id invoice)].
Definition clickEdit (invoice : Invoice.t) : list Act :=
  [OnEditInvoice (Invoice.id invoice)].
Definition clickDelete (s : State) (invoice : Invoice.t) : State * list Act :=
  (openDeleteConfirmation invoice s, []).
End defs.
End InvoiceCRUD.

(** ** The application shell ([App], src/unnamed/part_000) *)
Module App.
(** The members of the [Page] enum that [App] mentions ([types.ts] is not
    part of the sources). *)
Inductive Page :=
| DASHBOARD | CREATE_MEMO | MANAGE_MEMOS | MANAGE_INVOICES | INVOICE_FORM
| MANAGE_CUSTOMERS | VIEW_ALL_SERVICES | MANAGE_AREAS | MANAGE_CALCULATIONS
| MANAGE_LOOKUP.

Global Instance Page_eq_dec : EqDecision Page.
Proof. solve_decision. Defined.

Record State := {
  currentPage : Page;
  editingMemoNo : option string;
  editingInvoiceId : option Z;
  printOnLoad : bool;
  printInvoiceOnLoad : bool;
}.

Definition initial : State :=
  {| currentPage := DASHBOARD; editingMemoNo := None; editingInvoiceId := None;
     printOnLoad := false; printInvoiceOnLoad := false |}.

Definition handleNavigate (page : Page) (a : State) : State :=
  {| currentPage := page; editingMemoNo := None; editingInvoiceId := None;
     printOnLoad := false; printInvoiceOnLoad := false |}.

Definition handleEditMemo (memoNo : string) (a : State) : State :=
  {| currentPage := CREATE_MEMO; editingMemoNo := Some memoNo;
     editingInvoiceId := editingInvoiceId a;
     printOnLoad := false; printInvoiceOnLoad := printInvoiceOnLoad a |}.

Definition handleDownloadMemo (memoNo : string) (a : State) : State :=
  {| currentPage := CREATE_MEMO; editingMemoNo := Some memoNo;
     editingInvoiceId := editingInvoiceId a;
     printOnLoad := true; printInvoiceOnLoad := printInvoiceOnLoad a |}.

Definition handleMemoFormClose (a : State) : State :=
  {| currentPage := MANAGE_MEMOS; editingMemoNo := None;
     editingInvoiceId := editingInvoiceId a;
     printOnLoad := false; printInvoiceOnLoad := printInvoiceOnLoad a |}.

Definition handleEditInvoice (invoiceId : Z) (a : State) : State :=
  {| currentPage := INVOICE_FORM; editingMemoNo := editingMemoNo a;
     editingInvoiceId := Some invoiceId;
     printOnLoad := printOnLoad a; printInvoiceOnLoad := false |}.

Definition handleDownloadInvoice (invoiceId : Z) (a : State) : State :=
  {| currentPage := INVOICE_FORM; editingMemoNo := editingMemoNo a;
     editingInvoiceId := Some invoiceId;
     printOnLoad := printOnLoad a; printInvoiceOnLoad := true |}.

Definition handleInvoiceFormClose (a : State) : State :=
  {| currentPage := MANAGE_INVOICES; editingMemoNo := editingMemoNo a;
     editingInvoiceId := None;
     printOnLoad := printOnLoad a; printInvoiceOnLoad := false |}.

(** [onCreateInvoice={() => setCurrentPage(Page.INVOICE_FORM)}] *)
Definition onCreateInvoice (a : State) : State :=
  {| currentPage := INVOICE_FORM; editingMemoNo := editingMemoNo a;
     editingInvoiceId := editingInvoiceId a;
     printOnLoad := printOnLoad a; printInvoiceOnLoad := printInvoiceOnLoad a |}.

(** What [renderPage] mounts, with the props that carry state. *)
Inductive Rendered :=
| Dashboard
| MemoForm (memoToLoad : option string) (printOnLoad : bool)
| MemoList
| InvoiceList
| InvoiceForm (invoiceIdToLoad : option Z) (printOnLoad : bool)
| CustomerCRUD
| ViewServices
| AreasCRUD
| CalculationsCRUD
| LookupCRUD.

Definition renderPage (a : State) : Rendered :=
  match currentPage a with
  | DASHBOARD => Dashboard
  | CREATE_MEMO => MemoForm (editingMemoNo a) (printOnLoad a)
  | MANAGE_MEMOS => MemoList
  | MANAGE_INVOICES => InvoiceList
  | INVOICE_FORM => InvoiceForm (editingInvoiceId a) (printInvoiceOnLoad a)
  | MANAGE_CUSTOMERS => CustomerCRUD
  | VIEW_ALL_SERVICES => ViewServices
  | MANAGE_AREAS => AreasCRUD
  | MANAGE_CALCULATIONS => CalculationsCRUD
  | MANAGE_LOOKUP => LookupCRUD
  end.

(** [pageTitle]; [pageName] is what the last branch computes from the
    page's enum value ([replace], [charAt], [toUpperCase], [toLowerCase]). *)
Definition pageTitle (pageName : Page → string) (a : State) : string :=
  if bool_decide (currentPage a = CREATE_MEMO) && opt_str_truthy (editingMemoNo a) then
    (if printOnLoad a then "Download Memo: " else "Edit Memo: ")
      +:+ default "" (editingMemoNo a)
  else if bool_decide (currentPage a = INVOICE_FORM) then
    if printInvoiceOnLoad a then "Download Invoice"
    else if opt_id_truthy (editingInvoiceId a) then "Edit Invoice"
    else "Create New Invoice"
  else pageName (currentPage a).

(** The callbacks [App] hands to the sidebar, the lists and the forms. *)
Inductive Event :=
| Navigate (page : Page)
| EditMemo (memoNo : string)
| DownloadMemo (memoNo : string)
| MemoFormClose
| EditInvoice (invoiceId : Z)
| DownloadInvoice (invoiceId : Z)
| InvoiceFormClose
| CreateInvoice.

Definition step (a : State) (ev : Event) : State :=
  match ev with
  | Navigate page => handleNavigate page a
  | EditMemo memoNo => handleEditMemo memoNo a
  | DownloadMemo memoNo => handleDownloadMemo memoNo a
  | MemoFormClose => handleMemoFormClose a
  | EditInvoice invoiceId => handleEditInvoice invoiceId a
  | DownloadInvoice invoiceId => handleDownloadInvoice invoiceId a
  | InvoiceFormClose => handleInvoiceFormClose a
  | CreateInvoice => onCreateInvoice a
  end.

(** The states of the shell: the callbacks called in any order, as a late
    timer or a late promise may call a form's callback from any page. *)
Inductive reachable : State → Prop :=
| reachable_initial : reachable initial
| reachable_step a ev : reachable a → reachable (step a ev).
End App.

(** ** More bookkeeping for the print coordinator *)
Module PrintBounds.
Import PrintCoordinator.

(** Timers whose callback will call [window.print()]. *)
Definition pending_print (w : Window) : nat :=
  length (filter (λ t, task t = printTask) (timers w)).

(** Neither [window.print()] nor the callback can still happen twice. *)
Definition bounded (w : Window) : Prop :=
  (length (listeners w) + pending w + count Printed w ≤ 1)%nat
  ∧ (pending_print w + count PrintInvoked w ≤ 1)%nat.

(** [window.print()] has not been called and only timer 0 can call it. *)
Definition print_on_timer_0 (w : Window) : Prop :=
  (∀ t, t ∈ timers w → task t = printTask → timerId t = 0)
  ∧ count PrintInvoked w = 0.

(** [window.print()] has not been called and no timer can call it. *)
Definition print_cancelled (w : Window) : Prop :=
  (∀ t, t ∈ timers w → task t ≠ printTask) ∧ count PrintInvoked w = 0.
End PrintBounds.

(** ** More concrete states *)
Module MoreScenarios.
(** the memo list over the ledger in which only invoice 7 exists *)
Definition memo_list_billed : MemoCRUD.State :=
  (MemoCRUD.fetchData (λ l, l) Scenario.billed_svc MemoCRUD.initial).1.

(** that list with the confirmation prompt open for M3 *)
Definition memo_prompt : MemoCRUD.State :=
  (MemoCRUD.clickDelete memo_list_billed Scenario.M3).1.

(** the ledger when it refuses to delete memos *)
Definition svc_no_delete : Services :=
  {| getCustomers := getCustomers Scenario.billed_svc;
     getMemos := getMemos Scenario.billed_svc;
     getInvoices := getInvoices Scenario.billed_svc;
     getInvoiceById := getInvoiceById Scenario.billed_svc;
     getUninvoicedMemosForCustomer := getUninvoicedMemosForCustomer Scenario.billed_svc;
     generateNewInvoiceNumber := generateNewInvoiceNumber Scenario.billed_svc;
     addInvoice := addInvoice Scenario.billed_svc;
     updateInvoice := updateInvoice Scenario.billed_svc;
     deleteMemo := λ _, Rejected |}.

(** the shell after a click on "Manage invoices" in the sidebar, and after
    a click on Edit for invoice 7 there *)
Definition on_invoice_list : App.State :=
  App.step App.initial (App.Navigate App.MANAGE_INVOICES).
Definition editing_7 : App.State := App.step on_invoice_list (App.EditInvoice 7).

(** the ledger after two sessions attached M1 at the same time: invoice 8
    lists it as well as invoice 7 *)
Definition INV8 : Invoice.t :=
  {| Invoice.id := 8; Invoice.invoice_no := "INV-008";
     Invoice.invoice_date := "2024-01-06"; Invoice.customer_name := "Acme";
     Invoice.memo_nos := ["M1"; "M2"];
     Invoice.total_amount := JsDecimal.of_Z 800;
     Invoice.amount_paid := JsDecimal.of_Z 0;
     Invoice.balance := JsDecimal.of_Z 800; Invoice.status := Draft |}.

Definition billed_twice : Store :=
  {| store_memos := [Scenario.M1; Scenario.M2; Scenario.M3];
     store_invoices := [Scenario.INV7; INV8];
     store_customers := [ {| Customer.customers_name := "Acme" |} ] |}.

(** invoice 8 of that ledger, opened for editing *)
Definition editing_INV8 : FormState :=
  Scenario.play (store_services billed_twice "INV-009") (Some 8%Z) [].

End MoreScenarios.

(** * Theorems *)

(** ** The decimal instance on examples *)
Example parseDecimal_500 : JsDecimal.parseDecimal "500" = JsDecimal.of_Z 500.
Proof. reflexivity. Qed.
Example parseDecimal_neg : JsDecimal.parseDecimal " -12.50" = JsDecimal.Fin (-25 # 2).
Proof. reflexivity. Qed.
Example parseDecimal_exp : JsDecimal.parseDecimal "1.5e3abc" = JsDecimal.of_Z 1500.
Proof. reflexivity. Qed.
Example parseDecimal_comma : JsDecimal.parseDecimal "1,200.00" = JsDecimal.of_Z 1.
Proof. reflexivity. Qed.
Example parseDecimal_abc : JsDecimal.parseDecimal "abc" = JsDecimal.NaN.
Proof. reflexivity. Qed.
Example parseDecimal_empty : JsDecimal.parseDecimal "" = JsDecimal.NaN.
Proof. reflexivity. Qed.
Example parseDecimal_dot : JsDecimal.parseDecimal "." = JsDecimal.NaN.
Proof. reflexivity. Qed.
Example plus_fractions :
  JsDecimal.plus (JsDecimal.parseDecimal "500") (JsDecimal.parseDecimal "300.5")
  = JsDecimal.parseDecimal "800.50".
Proof. reflexivity. Qed.

(** * Totals *)
Section totals.
Context `{JsNumber}.

Lemma memo_amount_or_zero lookup memoNo :
  memo_amount lookup memoNo = amount_or_zero lookup memoNo.
Proof.
  unfold memo_amount, amount_or_zero.
  destruct (lookup !! memoNo) as [memo|]; simpl; [|apply parseFloat_0].
  destruct (str_truthy (trips_total_amt memo)); [done|apply parseFloat_0].
Qed.

Lemma foldl_memo_amount lookup nos acc :
  foldl (λ sum memoNo, add sum (memo_amount lookup memoNo)) acc nos
  = foldl (λ sum memoNo, add sum (amount_or_zero lookup memoNo)) acc nos.
Proof.
  revert acc; induction nos as [|n nos IH]; intros acc; simpl; [done|].
  by rewrite memo_amount_or_zero, IH.
Qed.

Lemma num_or_zero_zero : num_or (Some zero) zero = zero.
Proof. unfold num_or. by destruct (truthy zero). Qed.

Lemma reduce_total_sum lookup nos :
  reduce_total lookup nos
  = num_or (Some (selected_sum lookup (default [] nos))) zero.
Proof.
  unfold reduce_total, selected_sum.
  destruct nos as [nos|]; simpl.
  - by rewrite foldl_memo_amount.
  - by destruct (truthy zero).
Qed.

Lemma calculateTotals_settled s : totals_settled (calculateTotals s).
Proof.
  unfold totals_settled, calculateTotals; simpl.
  by rewrite reduce_total_sum.
Qed.

(** [totals_settled] only reads the selection, the amount paid, the two
    derived fields and the lookup. *)
Lemma totals_settled_ext s s' :
  memo_nos (invoice s') = memo_nos (invoice s) →
  amount_paid (invoice s') = amount_paid (invoice s) →
  total_amount (invoice s') = total_amount (invoice s) →
  balance (invoice s') = balance (invoice s) →
  allMemos s' = allMemos s →
  totals_settled s → totals_settled s'.
Proof.
  unfold totals_settled. intros -> -> -> -> ->. done.
Qed.

(** On a fresh invoice the effect is the identity, so it is immaterial
    whether React re-runs it after [{...initialInvoiceState, invoice_no}]. *)
Lemma calculateTotals_new_invoice today no s :
  calculateTotals (set_invoice (λ _, with_invoice_no no (initialInvoiceState today)) s)
  = set_invoice (λ _, with_invoice_no no (initialInvoiceState today)) s.
Proof.
  unfold calculateTotals, set_invoice, with_totals, reduce_total; simpl.
  rewrite truthy_zero, sub_zero_zero. done.
Qed.

Lemma new_invoice_settled today no s :
  totals_settled (set_invoice (λ _, with_invoice_no no (initialInvoiceState today)) s).
Proof.
  rewrite <- calculateTotals_new_invoice. apply calculateTotals_settled.
Qed.

Lemma mount_settled today : totals_settled (mount today).
Proof. apply calculateTotals_settled. Qed.

Lemma loadInitialData_settled svc today invoiceIdToLoad :
  totals_settled (loadInitialData svc today invoiceIdToLoad (mount today)).1.
Proof.
  unfold loadInitialData.
  destruct (getCustomers svc) as [customersData|], (getMemos svc) as [memosData|];
    try (simpl; apply mount_settled).
  assert (Hnew : ∀ s0,
    totals_settled
      (let '(s, log) :=
         match generateNewInvoiceNumber svc with
         | Resolved newInvoiceNo =>
           (set_invoice (λ _, with_invoice_no newInvoiceNo (initialInvoiceState today))
                        (calculateTotals s0),
            [Call GenerateNewInvoiceNumber])
         | Rejected => (calculateTotals s0, Call GenerateNewInvoiceNumber :: load_failed)
         end in
       (set_isLoading false s, Call GetCustomers :: Call GetMemos :: log)).1).
  { intros s0. destruct (generateNewInvoiceNumber svc) as [no|]; simpl.
    - eapply totals_settled_ext; [..|apply (new_invoice_settled today no (calculateTotals s0))]; done.
    - apply (calculateTotals_settled s0). }
  destruct invoiceIdToLoad as [invoiceId|]; [|apply Hnew].
  destruct (id_truthy invoiceId); [|apply Hnew].
  destruct (getInvoiceById svc invoiceId) as [[loadedInvoice|]|]; simpl;
    try (apply (calculateTotals_settled
                  (set_allMemos (memosMap memosData)
                     (set_customers customersData (set_isLoading true (mount today)))))).
  destruct (getUninvoicedMemosForCustomer svc _) as [memos|]; simpl;
    match goal with
    | |- context [calculateTotals (set_invoice ?f ?s0)] =>
      apply (calculateTotals_settled (set_invoice f s0))
    end.
Qed.

Lemma handle_unchanged svc ev s :
  deps_changed ev s (handle svc ev s).1 = false →
  memo_nos (invoice (handle svc ev s).1) = memo_nos (invoice s)
  ∧ amount_paid (invoice (handle svc ev s).1) = amount_paid (invoice s)
  ∧ total_amount (invoice (handle svc ev s).1) = total_amount (invoice s)
  ∧ balance (invoice (handle svc ev s).1) = balance (invoice s)
  ∧ allMemos (handle svc ev s).1 = allMemos s.
Proof.
  unfold deps_changed. intros Hd.
  apply orb_false_elim in Hd as [Hr Ha].
  apply negb_false_iff, bool_decide_eq_true in Ha.
  destruct ev; simpl in *; try done.
  unfold handleCustomerChange in *.
  apply negb_false_iff in Hr. rewrite Hr. done.
Qed.

Lemma dispatch_settled svc ev s :
  totals_settled s → totals_settled (dispatch svc ev s).1.
Proof.
  intros Hs. unfold dispatch.
  destruct (handle svc ev s) as [s' log] eqn:Hh; simpl.
  destruct (deps_changed ev s s') eqn:Hd; [apply calculateTotals_settled|].
  replace s' with (handle svc ev s).1 in * by (by rewrite Hh).
  destruct (handle_unchanged svc ev s Hd) as (?&?&?&?&?).
  by eapply totals_settled_ext.
Qed.

Lemma handleSave_settled svc s :
  totals_settled s → totals_settled (handleSave svc s).1.
Proof.
  intros Hs. unfold handleSave.
  destruct (_ || _); simpl; [done|].
  by eapply totals_settled_ext.
Qed.

(** When the sum of the selected amounts is a number other than [NaN] and
    no selected memo has an empty amount, the total is the sum the
    specification describes. *)
Lemma selected_sum_spec_total lookup nos :
  (∀ n memo, n ∈ nos → lookup !! n = Some memo →
             str_truthy (trips_total_amt memo) = true) →
  selected_sum lookup nos = spec_total lookup nos.
Proof.
  unfold selected_sum, spec_total.
  assert (Hacc : ∀ acc,
    (∀ n memo, n ∈ nos → lookup !! n = Some memo →
               str_truthy (trips_total_amt memo) = true) →
    foldl (λ sum memoNo, add sum (amount_or_zero lookup memoNo)) acc nos
    = foldl (λ sum memoNo,
               add sum (match lookup !! memoNo with
                        | Some memo => parseFloat (trips_total_amt memo)
                        | None => zero
                        end)) acc nos); [|by apply Hacc].
  induction nos as [|n nos IH]; intros acc Hne; simpl; [done|].
  rewrite IH by (intros n' m' Hin Hl; apply (Hne n' m'); [set_solver|done]).
  unfold amount_or_zero.
  destruct (lookup !! n) as [memo|] eqn:Hl; [|done].
  rewrite (Hne n memo); [done|set_solver|done].
Qed.

(** C1 (as amended): in every state the invoice form reaches — after the
    load and after every change of the selection, of the amount paid or of
    any other input — [total_amount] is the sum of
    [parseFloat(trips_total_amt)] over the selected memo numbers, where a
    number absent from the lookup or a memo with an empty amount adds zero
    and a sum that is [NaN] (or zero) is replaced by [0]; [balance] is that
    total minus [amount_paid], a missing, [NaN] or zero [amount_paid]
    counting as [0]. *)
Theorem totals_follow_selection svc today invoiceIdToLoad s :
  reachable svc today invoiceIdToLoad s →
  let sum := selected_sum (allMemos s) (default [] (memo_nos (invoice s))) in
  let total := if truthy sum then sum else zero in
  let paid := match amount_paid (invoice s) with
              | Some p => if truthy p then p else zero
              | None => zero
              end in
  total_amount (invoice s) = Some total
  ∧ balance (invoice s) = Some (sub total paid).
Proof.
  intros Hr.
  assert (Hs : totals_settled s).
  { induction Hr.
    - apply loadInitialData_settled.
    - by apply dispatch_settled.
    - by apply handleSave_settled. }
  exact Hs.
Qed.
End totals.

Section scenario_facts.
Import Scenario.

Lemma play_snoc svc invoiceIdToLoad evs ev :
  play svc invoiceIdToLoad (evs ++ [ev])
  = (dispatch svc ev (play svc invoiceIdToLoad evs)).1.
Proof. unfold play. by rewrite foldl_app. Qed.

(** A run is reachable when each of its events is enabled where it occurs. *)
Lemma play_reachable svc invoiceIdToLoad evs :
  (∀ k ev, evs !! k = Some ev → enabled (play svc invoiceIdToLoad (take k evs)) ev) →
  reachable svc today invoiceIdToLoad (play svc invoiceIdToLoad evs).
Proof.
  induction evs as [|ev evs IH] using rev_ind; intros Hen.
  - apply reachable_loaded.
  - rewrite play_snoc. apply reachable_event.
    + apply IH. intros k ev' Hk.
      specialize (Hen k ev'). rewrite lookup_app_l in Hen by by eapply lookup_lt_Some.
      rewrite take_app_le in Hen by (apply Nat.lt_le_incl; by eapply lookup_lt_Some).
      by apply Hen.
    + specialize (Hen (length evs) ev).
      rewrite list_lookup_middle in Hen by done.
      rewrite take_app_length in Hen. by apply Hen.
Qed.

Lemma enabled_check (s : FormState) memoNo isSelected memo :
  bool_decide (memo ∈ displayMemos s) = true →
  trips_memo_no memo = memoNo →
  negb (checked s memo) = isSelected →
  enabled s (ToggleMemo memoNo isSelected).
Proof.
  intros Hin <- <-. apply enabled_toggle. by apply bool_decide_eq_true in Hin.
Qed.

Lemma paid_200_reachable : reachable svc today None paid_200.
Proof.
  apply play_reachable. intros [|[|[|[|k]]]] ev Hev; simplify_eq/=.
  - constructor.
  - by apply (enabled_check _ _ _ M1); vm_compute.
  - by apply (enabled_check _ _ _ M2); vm_compute.
  - constructor.
Qed.

Lemma with_M3_reachable : reachable svc today None with_M3.
Proof.
  apply play_reachable. intros [|[|[|k]]] ev Hev; simplify_eq/=.
  - constructor.
  - by apply (enabled_check _ _ _ M1); vm_compute.
  - by apply (enabled_check _ _ _ M3); vm_compute.
Qed.
End scenario_facts.

(** Witness of [totals_follow_selection]: customer Acme, memos M1 (500) and
    M2 (300) selected, 200 paid: the total is 800 and the balance 600. *)
Lemma totals_follow_selection_witness :
  reachable Scenario.svc Scenario.today None Scenario.paid_200
  ∧ total_amount (invoice Scenario.paid_200) = Some (JsDecimal.of_Z 800)
  ∧ balance (invoice Scenario.paid_200) = Some (JsDecimal.of_Z 600).
Proof.
  split; [exact paid_200_reachable|].
  exact (totals_follow_selection Scenario.svc Scenario.today None Scenario.paid_200
           paid_200_reachable).
Defined.

(** C1, counterexample: with M1 (500) and M3 (amount "N/A") selected the
    specification's sum is [500 + NaN = NaN]; the form shows a total of 0. *)
Lemma totals_not_the_sum :
  reachable Scenario.svc Scenario.today None Scenario.with_M3
  ∧ memo_nos (invoice Scenario.with_M3) = Some ["M1"; "M3"]
  ∧ spec_total (allMemos Scenario.with_M3) ["M1"; "M3"] = JsDecimal.NaN
  ∧ total_amount (invoice Scenario.with_M3) = Some (JsDecimal.of_Z 0)
  ∧ total_amount (invoice Scenario.with_M3)
    ≠ Some (spec_total (allMemos Scenario.with_M3) ["M1"; "M3"]).
Proof.
  split; [exact with_M3_reachable|].
  split; [by vm_compute|].
  assert (Hsum : spec_total (allMemos Scenario.with_M3) ["M1"; "M3"] = JsDecimal.NaN)
    by (by vm_compute).
  assert (Htot : total_amount (invoice Scenario.with_M3) = Some (JsDecimal.of_Z 0))
    by (by vm_compute).
  split; [done|]. split; [done|].
  rewrite Hsum, Htot. discriminate.
Qed.

(** * The handlers of the invoice form *)
Section handlers.
Context `{JsNumber}.

(** C5 (as amended): the amount-paid input stores [parseFloat(value)], or
    [0] when that is [NaN] or zero; there is no check of the sign.  When the
    stored amount differs from the one before, the totals are recomputed
    from the new amount; when it does not, nothing else changes. *)
Theorem amount_paid_stored_as_parsed svc value s :
  let paid := if truthy (parseFloat value) then parseFloat value else zero in
  let s' := (dispatch svc (ChangeAmountPaid value) s).1 in
  amount_paid (invoice s') = Some paid
  ∧ s' = (if bool_decide (amount_paid (invoice s) = Some paid)
          then setAmountPaid value s
          else calculateTotals (setAmountPaid value s))
  ∧ (if bool_decide (amount_paid (invoice s) = Some paid)
     then balance (invoice s') = balance (invoice s)
     else balance (invoice s')
          = Some (sub (reduce_total (allMemos s) (memo_nos (invoice s))) paid)).
Proof.
  unfold dispatch, deps_changed; simpl.
  case_bool_decide as Hold; simpl; [done|].
  repeat split.
  destruct (truthy (parseFloat value)) eqn:Ht; [by rewrite Ht|].
  by rewrite truthy_zero.
Qed.

(** C10: un-checking [n] leaves exactly the other selected numbers, so [n]
    is gone however often it occurred; checking [n] appends it without
    looking for it, so it then occurs once more than before. *)
Theorem toggle_off_filters_toggle_on_appends (n : string) (s : FormState) :
  let current := default [] (memo_nos (invoice s)) in
  let off := handleMemoSelection n false s in
  let on := handleMemoSelection n true s in
  memo_nos (invoice off) = Some (filter (λ m, m ≠ n) current)
  ∧ (n ∉ default [] (memo_nos (invoice off)))
  ∧ (∀ m, m ∈ default [] (memo_nos (invoice off)) ↔ (m ∈ current ∧ m ≠ n))
  ∧ memo_nos (invoice on) = Some (current ++ [n])
  ∧ length (filter (λ m, m = n) (default [] (memo_nos (invoice on))))
    = S (length (filter (λ m, m = n) current)).
Proof.
  simpl. split; [done|].
  split; [by intros [? ?]%list_elem_of_filter|].
  split; [intros m; rewrite list_elem_of_filter; tauto|].
  split; [done|].
  rewrite filter_app, length_app, filter_cons_True by done. simpl. lia.
Qed.

(** Checking a number that is already selected leaves a duplicate. *)
Lemma toggle_on_twice_duplicates (n : string) (s : FormState) :
  n ∈ default [] (memo_nos (invoice s)) →
  ¬ NoDup (default [] (memo_nos (invoice (handleMemoSelection n true s)))).
Proof.
  simpl. intros Hin Hnd.
  apply NoDup_app in Hnd as (_ & Hdis & _).
  apply (Hdis n Hin). by left.
Qed.

(** C4 (as amended): a change of customer is gated by the invoice's
    identifier, not by its selection.  With an identifier nothing happens
    at all; without one the name is stored, the selection is emptied and,
    for a non-empty name, the customer's uninvoiced memos are fetched and
    shown (the old list stays when the fetch fails); for the empty name
    the list is emptied without a fetch. *)
Theorem customer_change_gated_by_id svc (customerName : string) (s : FormState) :
  let r := handleCustomerChange svc customerName s in
  if opt_id_truthy (id (invoice s)) then r = (s, [])
  else
    customer_name (invoice r.1) = Some customerName
    ∧ memo_nos (invoice r.1) = Some []
    ∧ if str_truthy customerName then
        r.2 = [Call (GetUninvoicedMemosForCustomer customerName)]
        ∧ availableMemos r.1
          = match getUninvoicedMemosForCustomer svc customerName with
            | Resolved memos => memos
            | Rejected => availableMemos s
            end
      else r.2 = [] ∧ availableMemos r.1 = [].
Proof.
  unfold handleCustomerChange.
  destruct (opt_id_truthy (id (invoice s))); [done|].
  destruct (str_truthy customerName); [|done].
  by destruct (getUninvoicedMemosForCustomer svc customerName).
Qed.

Lemma handleSave_invalid svc s :
  validateForSave (invoice s) ≠ None → handleSave svc s = (s, save_invalid).
Proof.
  unfold validateForSave, handleSave.
  destruct (negb (opt_str_truthy (customer_name (invoice s)))); [done|].
  destruct (negb (opt_str_truthy (invoice_date (invoice s)))); [done|].
  by destruct (length _ =? 0)%nat.
Qed.

Lemma handleSave_valid svc s :
  validateForSave (invoice s) = None →
  handleSave svc s
  = (set_isSaving false (set_isSaving true s),
     if opt_id_truthy (id (invoice s)) then
       Call (UpdateInvoice (invoice s)) ::
       match updateInvoice svc (invoice s) with
       | Resolved _ => [Toast "Invoice updated successfully!" success; OnSaveSuccess]
       | Rejected => [Toast "Failed to save invoice." error]
       end
     else
       Call (AddInvoice (invoice s)) ::
       match addInvoice svc (invoice s) with
       | Resolved _ => [Toast "Invoice created successfully!" success; OnSaveSuccess]
       | Rejected => [Toast "Failed to save invoice." error]
       end).
Proof.
  unfold validateForSave, handleSave.
  destruct (negb (opt_str_truthy (customer_name (invoice s)))); [done|].
  destruct (negb (opt_str_truthy (invoice_date (invoice s)))); [done|].
  by destruct (length _ =? 0)%nat.
Qed.

(** C3 (as amended): a draft without a customer name, without a date or
    without a selected memo is not saved: the state stays as it is, no
    service is called, and the one notice shown is the same for the three
    reasons. *)
Theorem save_rejects_incomplete_draft svc s :
  validateForSave (invoice s) ≠ None →
  handleSave svc s
  = (s, [Toast "Please select a customer, date, and at least one memo." error])
  ∧ Forall (λ a, is_store_call a = false) (handleSave svc s).2.
Proof.
  intros Hv. rewrite (handleSave_invalid svc s Hv). split; [done|].
  by repeat constructor.
Qed.

(** C9: when the create or update call of a save fails, the draft is what
    it was (only [isSaving] is back to [false]), the failure notice is
    shown, neither [onSaveSuccess] nor [onCancel] is called, and a second
    save behaves as the first would have. *)
Theorem save_failure_keeps_draft svc s :
  validateForSave (invoice s) = None →
  save_outcome svc (invoice s) = Rejected →
  let r := handleSave svc s in
  invoice r.1 = invoice s
  ∧ availableMemos r.1 = availableMemos s
  ∧ allMemos r.1 = allMemos s
  ∧ isSaving r.1 = false
  ∧ (Toast "Failed to save invoice." error ∈ r.2)
  ∧ (OnSaveSuccess ∉ r.2)
  ∧ (OnCancel ∉ r.2)
  ∧ ∀ svc', handleSave svc' r.1 = handleSave svc' s.
Proof.
  intros Hv Hrej. simpl.
  assert (Hretry : ∀ svc',
    handleSave svc' (set_isSaving false (set_isSaving true s)) = handleSave svc' s).
  { intros svc'. by rewrite !handleSave_valid by done. }
  rewrite (handleSave_valid svc s Hv). unfold save_outcome in Hrej. simpl.
  destruct (opt_id_truthy (id (invoice s))); rewrite Hrej;
    (do 4 (split; [done|]));
    (split; [apply elem_of_cons; right; apply elem_of_cons; by left|]);
    (split; [intros Hin|split; [intros Hin|done]]);
    repeat (apply elem_of_cons in Hin as [Hin|Hin]; [discriminate Hin|]);
    by apply elem_of_nil in Hin.
Qed.
End handlers.

(** Witness of [save_rejects_incomplete_draft]: customer and date set,
    nothing selected. *)
Lemma save_rejects_incomplete_draft_witness :
  validateForSave (invoice Scenario.customer_only) = Some noMemosSelected
  ∧ handleSave Scenario.svc Scenario.customer_only
    = (Scenario.customer_only,
       [Toast "Please select a customer, date, and at least one memo." error]).
Proof.
  split; [reflexivity|].
  apply (save_rejects_incomplete_draft Scenario.svc Scenario.customer_only).
  vm_compute. discriminate.
Defined.

(** C3, counterexample: the notice cannot tell the reasons apart.  A draft
    without a customer and a draft without a selected memo fail for
    different reasons and produce the same actions, so no reading of the
    actions gives the reason back. *)
Lemma save_notice_not_specific :
  ¬ ∃ reason_of : list Action → ValidationError,
      ∀ s e, validateForSave (invoice s) = Some e →
             reason_of (handleSave Scenario.svc s).2 = e.
Proof.
  intros [reason_of Hr].
  pose proof (Hr Scenario.opened missingCustomer eq_refl) as H1.
  pose proof (Hr Scenario.customer_only noMemosSelected eq_refl) as H2.
  rewrite (handleSave_invalid Scenario.svc Scenario.opened) in H1 by (vm_compute; discriminate).
  rewrite (handleSave_invalid Scenario.svc Scenario.customer_only) in H2
    by (vm_compute; discriminate).
  simpl in H1, H2. congruence.
Qed.

(** C4, counterexample: on a new invoice with M1 selected the customer
    changes from Acme to Zenith (and the selection is dropped). *)
Lemma customer_changes_with_memos_selected :
  memo_nos (invoice Scenario.one_selected) = Some ["M1"]
  ∧ customer_name (invoice Scenario.one_selected) = Some "Acme"
  ∧ enabled Scenario.one_selected (ChangeCustomer "Zenith")
  ∧ customer_name
      (invoice (dispatch Scenario.svc (ChangeCustomer "Zenith") Scenario.one_selected).1)
    = Some "Zenith".
Proof.
  split; [by vm_compute|]. split; [by vm_compute|].
  split; [constructor|]. by vm_compute.
Qed.

(** C5, counterexample: typing -5 stores -5, and the balance of the
    800 total becomes 805. *)
Lemma negative_amount_paid_stored :
  let s' := (dispatch Scenario.svc (ChangeAmountPaid "-5") Scenario.paid_200).1 in
  amount_paid (invoice s') = Some (JsDecimal.of_Z (-5))
  ∧ JsDecimal.negative (JsDecimal.of_Z (-5)) = true
  ∧ balance (invoice s') = Some (JsDecimal.of_Z 805).
Proof.
  split; [by vm_compute|]. split; [by vm_compute|]. by vm_compute.
Qed.

(** Witness of [save_failure_keeps_draft]: the scenario's draft, saved
    against a ledger that refuses to create invoices. *)
Lemma save_failure_keeps_draft_witness :
  validateForSave (invoice Scenario.paid_200) = None
  ∧ save_outcome Scenario.svc_down (invoice Scenario.paid_200) = Rejected
  ∧ invoice (handleSave Scenario.svc_down Scenario.paid_200).1 = invoice Scenario.paid_200
  ∧ (OnSaveSuccess ∉ (handleSave Scenario.svc_down Scenario.paid_200).2).
Proof.
  assert (Hv : validateForSave (invoice Scenario.paid_200) = None) by (by vm_compute).
  assert (Hr : save_outcome Scenario.svc_down (invoice Scenario.paid_200) = Rejected)
    by reflexivity.
  split; [exact Hv|]. split; [exact Hr|].
  pose proof (save_failure_keeps_draft Scenario.svc_down Scenario.paid_200 Hv Hr) as Hk.
  split; [apply Hk|apply Hk].
Defined.

(** * Which memos the form offers *)
Section eligibility.
Context `{JsNumber}.


Lemma dispatch_same_rows svc ev s : same_rows (handle svc ev s).1 (dispatch svc ev s).1.
Proof.
  unfold dispatch. destruct (handle svc ev s) as [s' log]; simpl.
  by destruct (deps_changed ev s s').
Qed.

Lemma handleSave_same_rows svc s : same_rows s (handleSave svc s).1.
Proof. unfold handleSave. by destruct (_ || _). Qed.

Lemma foldl_insert_keyed memosData (lookup : gmap string MemoData) :
  keyed lookup →
  keyed (foldl (λ m memo, <[trips_memo_no memo := memo]> m) lookup memosData).
Proof.
  revert lookup. induction memosData as [|memo l IH]; intros lookup Hk; simpl; [done|].
  apply IH. intros k m. rewrite lookup_insert.
  case_decide; [naive_solver|apply Hk].
Qed.

Lemma memosMap_keyed memosData : keyed (memosMap memosData).
Proof. apply foldl_insert_keyed. intros k m. by rewrite lookup_empty. Qed.








Section ledger_session.
Variables (st : Store) (newInvoiceNo today : string).
Local Abbreviation svc := (store_services st newInvoiceNo).














End ledger_session.
End eligibility.



(** Where two persisted invoices list the same memo (the ledger gives no
    transactions, so two sessions can both attach it), each of them shows
    it: M1 is linked to invoice 7, and the form opened on the different
    invoice 8, which lists M1 too, displays M1 with its box checked. *)
Remark memo_on_two_invoices_shown_on_both :
  Scenario.INV7 ∈ store_invoices MoreScenarios.billed_twice
  ∧ "M1" ∈ Invoice.memo_nos Scenario.INV7
  ∧ MoreScenarios.INV8 ≠ Scenario.INV7
  ∧ id (invoice MoreScenarios.editing_INV8) = Some 8%Z
  ∧ Scenario.M1 ∈ displayMemos MoreScenarios.editing_INV8
  ∧ checked MoreScenarios.editing_INV8 Scenario.M1 = true.
Proof.
  split; [by left|]. split; [by left|]. split; [discriminate|].
  split; [by vm_compute|]. split; [|by vm_compute].
  apply (bool_decide_unpack _). by vm_compute.
Qed.

(** * The print coordinator *)
Module PrintProofs.
Import PrintCoordinator.

Lemma filter_all {A} (P : A → Prop) `{∀ x, Decision (P x)} (l : list A) :
  Forall P l → filter P l = l.
Proof.
  induction 1 as [|x l Hx _ IH]; [done|].
  by rewrite filter_cons_True, IH.
Qed.

Lemma filter_out_one (P : Timer → Prop) `{∀ t, Decision (P t)} (l : list Timer) t :
  NoDup (timerId <$> l) → t ∈ l →
  length (filter P l)
  = length (filter P (filter (λ t', timerId t' ≠ timerId t) l))
    + (if decide (P t) then 1 else 0).
Proof.
  induction l as [|x l IH]; intros Hnd Hin; [by apply elem_of_nil in Hin|].
  rewrite fmap_cons in Hnd. apply NoDup_cons in Hnd as [Hx Hnd].
  apply elem_of_cons in Hin as [->|Hin].
  - rewrite (filter_cons_False (λ t', timerId t' ≠ timerId x) x)
      by (intros Hn; by apply Hn).
    rewrite (filter_all (λ t', timerId t' ≠ timerId x) l).
    + rewrite filter_cons. destruct (decide (P x)); simpl; lia.
    + apply Forall_forall. intros y Hy Heq. apply Hx.
      rewrite <- Heq. by apply list_elem_of_fmap_2.
  - assert (timerId x ≠ timerId t) as Hne.
    { intros Heq. apply Hx. rewrite Heq. by apply list_elem_of_fmap_2. }
    rewrite (filter_cons_True (λ t', timerId t' ≠ timerId t) x) by done.
    rewrite !(filter_cons P). specialize (IH Hnd Hin).
    destruct (decide (P x)); simpl; lia.
Qed.

Lemma count_observe o o' w :
  count o (observe o' w) = count o w + (if decide (o' = o) then 1 else 0).
Proof.
  unfold count, observe; simpl. rewrite filter_app, length_app.
  rewrite filter_cons, filter_nil. by destruct (decide (o' = o)).
Qed.

Lemma timers_fire i w :
  timers (fire i w) = filter (λ t, timerId t ≠ i) (timers w).
Proof.
  unfold fire. destruct (list_find _ (timers w)) as [[j t]|] eqn:Hf.
  - by destruct (task t).
  - apply list_find_None in Hf. symmetry. apply filter_all.
    eapply Forall_impl; [exact Hf|]. naive_solver.
Qed.

Lemma listeners_fire i w : listeners (fire i w) = listeners w.
Proof.
  unfold fire. destruct (list_find _ (timers w)) as [[j t]|]; [|done].
  by destruct (task t).
Qed.

Lemma nextTimer_fire i w : nextTimer (fire i w) = nextTimer w.
Proof.
  unfold fire. destruct (list_find _ (timers w)) as [[j t]|]; [|done].
  by destruct (task t).
Qed.

Lemma fire_coordinated i w : coordinated w → coordinated (fire i w).
Proof.
  intros [Htok Hnd Hiss]. split.
  - rewrite listeners_fire. unfold pending. rewrite timers_fire.
    unfold fire. destruct (list_find _ (timers w)) as [[j t]|] eqn:Hf.
    + apply list_find_Some in Hf as (Hl & <- & _).
      apply list_elem_of_lookup_2 in Hl.
      pose proof (filter_out_one (λ t, task t = printedTask) (timers w) t Hnd Hl) as Hone.
      unfold pending in Htok.
      destruct (task t) eqn:Ht; simpl in *; rewrite count_observe;
        change (count Printed (clearTimeout (timerId t) w)) with (count Printed w).
      * rewrite decide_False in Hone by congruence.
        rewrite decide_False by done. lia.
      * rewrite decide_True in Hone by congruence.
        rewrite decide_True by done. lia.
    + apply list_find_None in Hf.
      rewrite (filter_all (λ t, timerId t ≠ i)); [exact Htok|].
      eapply Forall_impl; [exact Hf|]. naive_solver.
  - rewrite timers_fire. eapply sublist_NoDup; [exact Hnd|].
    apply fmap_sublist, sublist_filter.
  - rewrite timers_fire, nextTimer_fire.
    rewrite Forall_forall in *. intros t [_ Ht]%list_elem_of_filter. by apply Hiss.
Qed.

Lemma signal_coordinated c w :
  coordinated w →
  coordinated (step c w AfterPrint) ∧ listeners (step c w AfterPrint) = [].
Proof.
  intros Hw. pose proof Hw as [Htok Hnd Hiss]. unfold step.
  destruct (listeners w) as [|[] [|l ls]] eqn:Hl; [done| |simpl in Htok; lia].
  simpl. rewrite Hl. split; [|done]. split; simpl.
  - unfold pending in *; simpl. simpl in Htok.
    rewrite filter_app, length_app, filter_cons_True by done.
    rewrite filter_nil. unfold count in *; simpl. lia.
  - rewrite fmap_app. apply NoDup_app. split; [done|]. split; [|apply NoDup_singleton].
    intros i Hi Hi'. apply list_elem_of_singleton in Hi'. subst i.
    apply list_elem_of_fmap in Hi as (t & Hid & Ht).
    rewrite Forall_forall in Hiss. specialize (Hiss t Ht). simpl in Hid. lia.
  - apply Forall_app. split.
    + eapply Forall_impl; [exact Hiss|]. simpl. lia.
    + apply Forall_singleton. simpl. lia.
Qed.

Lemma step_coordinated c w ev :
  ev ≠ Unmount → coordinated w → coordinated (step c w ev).
Proof.
  intros Hev Hw. destruct ev as [|i|]; [|by apply fire_coordinated|done].
  by apply signal_coordinated.
Qed.

Lemma step_stays_unregistered c w ev :
  ev ≠ Unmount → listeners w = [] → listeners (step c w ev) = [].
Proof.
  intros Hev Hl. destruct ev as [|i|]; simpl; [by rewrite Hl| |done].
  by rewrite listeners_fire.
Qed.

Lemma run_coordinated c evs w :
  Unmount ∉ evs → coordinated w → coordinated (run c evs w).
Proof.
  revert w. induction evs as [|ev evs IH]; intros w Hevs Hw; simpl; [done|].
  apply not_elem_of_cons in Hevs as [Hev Hevs].
  apply IH; [done|]. by apply step_coordinated.
Qed.

Lemma run_stays_unregistered c evs w :
  Unmount ∉ evs → listeners w = [] → listeners (run c evs w) = [].
Proof.
  revert w. induction evs as [|ev evs IH]; intros w Hevs Hw; simpl; [done|].
  apply not_elem_of_cons in Hevs as [Hev Hevs].
  apply IH; [done|]. by apply step_stays_unregistered.
Qed.

(** After the first signal there is no listener left, whatever follows. *)
Lemma run_signal_unregisters c evs w :
  Unmount ∉ evs → AfterPrint ∈ evs → coordinated w → listeners (run c evs w) = [].
Proof.
  revert w. induction evs as [|ev evs IH]; intros w Hevs Hsig Hw; simpl.
  - by apply elem_of_nil in Hsig.
  - apply not_elem_of_cons in Hevs as [Hev Hevs].
    destruct (decide (ev = AfterPrint)) as [->|Hne].
    + apply run_stays_unregistered; [done|]. by apply signal_coordinated.
    + apply IH; [done| |by apply step_coordinated].
      apply elem_of_cons in Hsig as [?|?]; [congruence|done].
Qed.

Lemma fire_all_coordinated (ts : list Timer) w :
  coordinated w → coordinated (foldl (λ w t, fire (timerId t) w) w ts).
Proof.
  revert w. induction ts as [|t ts IH]; intros w Hw; simpl; [done|].
  by apply IH, fire_coordinated.
Qed.

Lemma fire_all_listeners (ts : list Timer) w :
  listeners (foldl (λ w t, fire (timerId t) w) w ts) = listeners w.
Proof.
  revert w. induction ts as [|t ts IH]; intros w; simpl; [done|].
  by rewrite IH, listeners_fire.
Qed.

Lemma fire_all_timers (ts : list Timer) w :
  timers (foldl (λ w t, fire (timerId t) w) w ts)
  = filter (λ t, timerId t ∉ timerId <$> ts) (timers w).
Proof.
  revert w. induction ts as [|t ts IH]; intros w; simpl.
  - symmetry. apply filter_all, Forall_forall. intros ? _. apply not_elem_of_nil.
  - rewrite IH, timers_fire, list_filter_filter.
    apply list_filter_iff. intros t'. rewrite not_elem_of_cons. tauto.
Qed.

Lemma settle_timers w : timers (settle w) = [].
Proof.
  unfold settle. rewrite fire_all_timers.
  assert (Hnone : ∀ l ts : list Timer,
    (∀ t, t ∈ l → t ∈ ts) → filter (λ t, timerId t ∉ timerId <$> ts) l = []).
  { intros l ts. induction l as [|t l IH]; intros Hsub; [done|].
    rewrite filter_cons_False.
    - apply IH. intros t' Ht'. apply Hsub. by right.
    - intros Hn. apply Hn, list_elem_of_fmap_2, Hsub. by left. }
  by apply Hnone.
Qed.

Lemma download_mode_coordinated : coordinated download_mode.1.
Proof.
  split; simpl.
  - reflexivity.
  - apply NoDup_singleton.
  - apply Forall_singleton. simpl. lia.
Qed.

(** C6: in download mode, once loading is over, let the print-finished
    signal arrive any number of times (at least once), interleaved in any
    way with the expiry of timers, the component staying mounted.  The
    completion callback has been called at most once at every moment, and
    exactly once when the pending timers have expired. *)
Theorem completion_callback_exactly_once (evs : list Event) :
  Unmount ∉ evs →
  AfterPrint ∈ evs →
  let w := run download_mode.2 evs download_mode.1 in
  (count Printed w ≤ 1)%nat
  ∧ count Printed (settle w) = 1
  ∧ timers (settle w) = []
  ∧ listeners (settle w) = [].
Proof.
  intros Hevs Hsig w.
  pose proof (run_coordinated download_mode.2 evs download_mode.1 Hevs
                download_mode_coordinated) as Hw.
  pose proof (run_signal_unregisters download_mode.2 evs download_mode.1 Hevs Hsig
                download_mode_coordinated) as Hl.
  fold w in Hw, Hl.
  pose proof (fire_all_coordinated (timers w) w Hw) as Hs. fold (settle w) in Hs.
  assert (Hsl : listeners (settle w) = []).
  { unfold settle. by rewrite fire_all_listeners. }
  split; [|split; [|split; [apply settle_timers|exact Hsl]]].
  - destruct Hw as [Htok _ _]. lia.
  - destruct Hs as [Htok _ _]. unfold pending in Htok.
    rewrite settle_timers, Hsl in Htok. simpl in Htok. lia.
Qed.

Lemma no_pending_filter (Q : Timer → Prop) `{∀ t, Decision (Q t)} (l : list Timer) :
  length (filter (λ t, task t = printedTask) l) = 0 →
  length (filter (λ t, task t = printedTask) (filter Q l)) = 0.
Proof.
  induction l as [|t l IH]; [done|].
  rewrite (filter_cons (λ t, task t = printedTask) t).
  destruct (decide (task t = printedTask)) as [Ht|Ht]; [done|]. intros Hl.
  rewrite (filter_cons Q). destruct (decide (Q t)); [|by apply IH].
  rewrite filter_cons_False by done. by apply IH.
Qed.

Lemma fire_armed i w : armed w → armed (fire i w).
Proof.
  intros [Hp Hc]. unfold fire.
  destruct (list_find _ (timers w)) as [[j t]|] eqn:Hf; [|done].
  apply list_find_Some in Hf as (Hl & _ & _). apply list_elem_of_lookup_2 in Hl.
  assert (task t = printTask) as ->.
  { destruct (task t) eqn:Ht; [done|]. unfold pending in Hp.
    apply length_zero_iff_nil in Hp.
    by apply (filter_nil_not_elem_of _ _ t Hp) in Ht. }
  split.
  - unfold pending in *; simpl. by apply no_pending_filter.
  - simpl. rewrite count_observe. simpl.
    change (count Printed (clearTimeout i w)) with (count Printed w). lia.
Qed.

Lemma cleanup_armed printTimer w :
  armed w →
  armed (cleanup (Some printTimer) w) ∧ listeners (cleanup (Some printTimer) w) = [].
Proof.
  intros [Hp Hc]. split; [split|].
  - unfold pending in *; simpl. by apply no_pending_filter.
  - simpl. rewrite count_observe. simpl. unfold count in *; simpl. lia.
  - simpl. induction (listeners w) as [|[] l IH]; [done|].
    by rewrite filter_cons_False by (intros Hn; by apply Hn).
Qed.

Lemma step_armed printTimer w ev :
  ev ≠ AfterPrint → armed w → armed (step (Some printTimer) w ev).
Proof.
  intros Hev Hw. destruct ev as [|i|]; [done|by apply fire_armed|].
  by apply cleanup_armed.
Qed.

Lemma step_quiet printTimer w ev :
  armed w → listeners w = [] →
  armed (step (Some printTimer) w ev) ∧ listeners (step (Some printTimer) w ev) = [].
Proof.
  intros Hw Hl. destruct ev as [|i|].
  - simpl. by rewrite Hl.
  - split; [by apply fire_armed|]. simpl. by rewrite listeners_fire.
  - by apply cleanup_armed.
Qed.

Lemma run_armed printTimer evs w :
  AfterPrint ∉ evs → armed w → armed (run (Some printTimer) evs w).
Proof.
  revert w. induction evs as [|ev evs IH]; intros w Hevs Hw; simpl; [done|].
  apply not_elem_of_cons in Hevs as [Hev Hevs].
  apply IH; [done|]. by apply step_armed.
Qed.

Lemma run_quiet printTimer evs w :
  armed w → listeners w = [] → armed (run (Some printTimer) evs w).
Proof.
  revert w. induction evs as [|ev evs IH]; intros w Hw Hl; simpl; [done|].
  destruct (step_quiet printTimer w ev Hw Hl). by apply IH.
Qed.

(** X12, the part of the teardown that works: when the component is torn
    down before the print-finished signal has arrived, the callback is never
    called, whatever happens afterwards. *)
Lemma teardown_before_signal_is_clean (before after : list Event) :
  AfterPrint ∉ before →
  count Printed (run download_mode.2 (before ++ Unmount :: after) download_mode.1) = 0.
Proof.
  intros Hb. unfold run. rewrite foldl_app. simpl.
  fold (run download_mode.2 before download_mode.1).
  pose proof (run_armed 0 before download_mode.1 Hb) as Ha.
  destruct (cleanup_armed 0 (run (Some 0) before download_mode.1)) as [Hc Hl].
  { apply Ha. by split. }
  by apply (run_quiet 0 after _ Hc Hl).
Qed.
End PrintProofs.

(** Witness of [completion_callback_exactly_once]: the print timer expires,
    the signal arrives twice, the delay timer expires, the signal arrives
    again. *)
Lemma completion_callback_exactly_once_witness :
  let evs := [PrintCoordinator.TimerFires 0; PrintCoordinator.AfterPrint;
              PrintCoordinator.AfterPrint; PrintCoordinator.TimerFires 1;
              PrintCoordinator.AfterPrint] in
  let w := PrintCoordinator.run PrintCoordinator.download_mode.2 evs
             PrintCoordinator.download_mode.1 in
  PrintCoordinator.trace w = [PrintCoordinator.PrintInvoked; PrintCoordinator.Printed]
  ∧ PrintCoordinator.count PrintCoordinator.Printed (PrintCoordinator.settle w) = 1.
Proof.
  split; [reflexivity|].
  apply (PrintProofs.completion_callback_exactly_once
           [PrintCoordinator.TimerFires 0; PrintCoordinator.AfterPrint;
            PrintCoordinator.AfterPrint; PrintCoordinator.TimerFires 1;
            PrintCoordinator.AfterPrint]).
  - rewrite !not_elem_of_cons. repeat (split; [discriminate|]). apply not_elem_of_nil.
  - right. left.
Defined.

(** C7, the code at the failing input: the print timer expires, the signal
    arrives, the component is torn down before the 100 ms delay is over, the
    delay timer expires.  The cleanup has removed the listener and the print
    timer, but the delay timer is still pending after it, and the completion
    callback runs after the teardown. *)
Theorem delay_timer_survives_teardown :
  let c := PrintCoordinator.download_mode.2 in
  let w0 := PrintCoordinator.download_mode.1 in
  let torn_down :=
    PrintCoordinator.run c [PrintCoordinator.TimerFires 0; PrintCoordinator.AfterPrint;
                            PrintCoordinator.Unmount] w0 in
  PrintCoordinator.listeners torn_down = []
  ∧ PrintCoordinator.timers torn_down
    = [ {| PrintCoordinator.timerId := 1; PrintCoordinator.delay := 100;
           PrintCoordinator.task := PrintCoordinator.printedTask |} ]
  ∧ PrintCoordinator.trace
      (PrintCoordinator.step c torn_down (PrintCoordinator.TimerFires 1))
    = [PrintCoordinator.PrintInvoked; PrintCoordinator.TornDown; PrintCoordinator.Printed]
  ∧ PrintCoordinator.printed_after_teardown
      (PrintCoordinator.trace
         (PrintCoordinator.step c torn_down (PrintCoordinator.TimerFires 1)))
    = true.
Proof. repeat split. Qed.

(** * The memo list *)
Section memo_list.
Context `{JsNumber}.
Variable sortByMemoNoDesc : list MemoData → list MemoData.

Lemma foldl_insert_memo_nos (nos : list string) (no : string) (m : gmap string string) k :
  foldl (λ m memoNo, <[memoNo := no]> m) m nos !! k
  = if bool_decide (k ∈ nos) then Some no else m !! k.
Proof.
  revert m. induction nos as [|n nos IH]; intros m; simpl; [done|].
  rewrite IH. case_bool_decide as Hin.
  - rewrite bool_decide_eq_true_2; [done|by right].
  - rewrite lookup_insert. case_decide as Hn.
    + subst. rewrite bool_decide_eq_true_2; [done|by left].
    + rewrite bool_decide_eq_false_2; [done|].
      rewrite not_elem_of_cons. split; [congruence|done].
Qed.

(** The invoicing map contains exactly the linked memo numbers. *)
Lemma newInvoiceMap_linked (invoiceData : list Invoice.t) k :
  is_Some (MemoCRUD.newInvoiceMap invoiceData !! k)
  ↔ ∃ i, i ∈ invoiceData ∧ k ∈ Invoice.memo_nos i.
Proof.
  unfold MemoCRUD.newInvoiceMap.
  assert (Hgen : ∀ m : gmap string string,
    is_Some (foldl (λ m invoice,
               foldl (λ m memoNo, <[memoNo := Invoice.invoice_no invoice]> m)
                     m (Invoice.memo_nos invoice)) m invoiceData !! k)
    ↔ is_Some (m !! k) ∨ ∃ i, i ∈ invoiceData ∧ k ∈ Invoice.memo_nos i).
  { induction invoiceData as [|i l IH]; intros m; simpl.
    - split; [by left|]. intros [?|(i & Hi & _)]; [done|]. by apply elem_of_nil in Hi.
    - rewrite IH, foldl_insert_memo_nos. case_bool_decide as Hin.
      + split; [|by left]. intros _. right. exists i. split; [by left|done].
      + split.
        * intros [?|(i' & Hi' & Hk)]; [by left|]. right. exists i'. split; [by right|done].
        * intros [?|(i' & Hi' & Hk)]; [by left|].
          apply elem_of_cons in Hi' as [->|Hi']; [done|]. right. eauto. }
  rewrite Hgen, lookup_empty. split; [|by right].
  intros [[? ?]|?]; done.
Qed.

(** Every value of the invoicing map is the number of some invoice. *)
Lemma newInvoiceMap_value (invoiceData : list Invoice.t) k no :
  MemoCRUD.newInvoiceMap invoiceData !! k = Some no →
  ∃ i, i ∈ invoiceData ∧ Invoice.invoice_no i = no.
Proof.
  unfold MemoCRUD.newInvoiceMap.
  assert (Hgen : ∀ m : gmap string string,
    foldl (λ m invoice,
             foldl (λ m memoNo, <[memoNo := Invoice.invoice_no invoice]> m)
                   m (Invoice.memo_nos invoice)) m invoiceData !! k = Some no →
    m !! k = Some no ∨ ∃ i, i ∈ invoiceData ∧ Invoice.invoice_no i = no).
  { induction invoiceData as [|i l IH]; intros m; simpl; [by left|].
    intros [Hm|(i' & Hi' & Hno)]%IH.
    - rewrite foldl_insert_memo_nos in Hm. case_bool_decide; [|by left].
      right. exists i. split; [by left|congruence].
    - right. exists i'. split; [by right|done]. }
  intros [Hm|?]%Hgen; [|done]. by rewrite lookup_empty in Hm.
Qed.

(** X21: where every persisted invoice has a non-empty invoice number, a
    linked memo is locked: both buttons are disabled with their reason, and
    clicking them does nothing. *)
Lemma numbered_invoices_lock_memos svc (s : MemoCRUD.State) memoData invoiceData memo :
  getMemos svc = Resolved memoData →
  getInvoices svc = Resolved invoiceData →
  Forall (λ i, Invoice.invoice_no i ≠ "") invoiceData →
  (∃ i, i ∈ invoiceData ∧ trips_memo_no memo ∈ Invoice.memo_nos i) →
  let s' := (MemoCRUD.fetchData sortByMemoNoDesc svc s).1 in
  let row := MemoCRUD.renderRow s' memo in
  MemoCRUD.editDisabled row = true
  ∧ MemoCRUD.editTitle row = "Cannot edit a memo that is part of an invoice."
  ∧ MemoCRUD.deleteDisabled row = true
  ∧ MemoCRUD.deleteTitle row = "Cannot delete a memo that is part of an invoice."
  ∧ MemoCRUD.clickEdit s' memo = (s', [])
  ∧ MemoCRUD.clickDelete s' memo = (s', []).
Proof.
  intros Hm Hi Hno Hlinked. unfold MemoCRUD.fetchData. rewrite Hm, Hi. simpl.
  apply newInvoiceMap_linked in Hlinked as [no Hl].
  assert (opt_str_truthy (MemoCRUD.newInvoiceMap invoiceData !! trips_memo_no memo) = true)
    as Htruthy.
  { rewrite Hl. simpl. apply newInvoiceMap_value in Hl as (i & Hin & <-).
    rewrite Forall_forall in Hno. specialize (Hno i Hin).
    by destruct (Invoice.invoice_no i). }
  unfold MemoCRUD.clickEdit, MemoCRUD.clickDelete, MemoCRUD.renderRow; simpl.
  by rewrite Htruthy.
Qed.
End memo_list.

(** C8, the code at the failing input: M2 is listed by a persisted invoice
    whose invoice number is the empty string.  The invoicing map contains
    M2, yet its row reads "Uninvoiced", Edit and Delete are enabled, Edit
    calls [onEditMemo] and Delete, once confirmed, calls the store's
    [deleteMemo]. *)
Theorem unnumbered_invoice_leaves_memo_unlocked :
  let s := Scenario.memo_list in
  let row := MemoCRUD.renderRow s Scenario.M2 in
  (∃ i, i ∈ store_invoices Scenario.billed_unnumbered ∧ "M2" ∈ Invoice.memo_nos i)
  ∧ MemoCRUD.invoiceMap s !! "M2" = Some ""
  ∧ MemoCRUD.statusBadge row = "Uninvoiced"
  ∧ MemoCRUD.editDisabled row = false
  ∧ MemoCRUD.deleteDisabled row = false
  ∧ (MemoCRUD.clickEdit s Scenario.M2).2 = [OnEditMemo "M2"]
  ∧ (MemoCRUD.handleDelete (λ l, l) (store_services Scenario.billed_unnumbered "INV-010")
       (MemoCRUD.clickDelete s Scenario.M2).1).2
    = [Call (DeleteMemo "M2"); Toast "Memo deleted successfully" success;
       Call GetMemos; Call GetInvoices].
Proof.
  split; [exists Scenario.unnumbered; split; [right; left|left]|].
  repeat split; by vm_compute.
Qed.

(** How an invoice without a number gets persisted: when
    [generateNewInvoiceNumber] fails the form stays usable with the initial,
    empty invoice number, and saving passes it to [addInvoice]. *)
Remark unnumbered_invoice_can_be_saved :
  let s := Scenario.play Scenario.svc_no_number None
             [ChangeCustomer "Acme"; ToggleMemo "M2" true] in
  reachable Scenario.svc_no_number Scenario.today None s
  ∧ invoice_no (invoice s) = Some ""
  ∧ (handleSave Scenario.svc_no_number s).2
    = [Call (AddInvoice (invoice s)); Toast "Invoice created successfully!" success;
       OnSaveSuccess].
Proof.
  split; [|split; by vm_compute].
  apply play_reachable. intros [|[|k]] ev Hev; simplify_eq/=.
  - constructor.
  - by apply (enabled_check _ _ _ Scenario.M2); vm_compute.
Qed.

(** The other memo of that ledger, M1, is billed on the numbered invoice 7
    and is locked. *)
Example numbered_invoice_locks_memo :
  MemoCRUD.editDisabled (MemoCRUD.renderRow Scenario.memo_list Scenario.M1) = true
  ∧ MemoCRUD.clickDelete Scenario.memo_list Scenario.M1 = (Scenario.memo_list, []).
Proof. split; by vm_compute. Qed.

(** * More about the invoice form *)
Section form_extras.
Context `{JsNumber}.

(** X1: running the totals effect again changes nothing: the state it
    writes is a fixed point, so the re-render it causes does not run it
    into a loop of updates. *)
Theorem calculateTotals_idempotent (s : FormState) :
  calculateTotals (calculateTotals s) = calculateTotals s.
Proof. by destruct s as [[] ? ? ? ? ?]. Qed.

Lemma filter_other_snoc (n : string) (l : list string) :
  n ∉ l → filter (λ m, m ≠ n) (l ++ [n]) = l.
Proof.
  intros Hn. rewrite filter_app, filter_cons_False, filter_nil, app_nil_r
    by (intros Hne; by apply Hne).
  apply PrintProofs.filter_all, Forall_forall. by intros m Hm ->.
Qed.

(** X2: checking a memo that was not selected and un-checking it again
    gives back the very state the form was in, totals included. *)
Theorem check_then_uncheck_restores svc (n : string) (s : FormState) current :
  memo_nos (invoice s) = Some current →
  n ∉ current →
  totals_settled s →
  (dispatch svc (ToggleMemo n false) (dispatch svc (ToggleMemo n true) s).1).1 = s.
Proof.
  intros Hnos Hn [Htot Hbal]. unfold dispatch, deps_changed; simpl.
  unfold calculateTotals, handleMemoSelection, set_invoice; simpl.
  rewrite Hnos in *; simpl in *. rewrite filter_other_snoc by done.
  rewrite !reduce_total_sum; simpl.
  destruct s as [[] ? ? ? ? ?]; simpl in *. subst. reflexivity.
Qed.

Lemma push_linked_prefix lookup nos acc :
  ∃ extra, foldl (push_linked lookup) acc nos = acc ++ extra.
Proof.
  revert acc. induction nos as [|n nos IH]; intros acc; simpl.
  - exists []. by rewrite app_nil_r.
  - unfold push_linked at 2. destruct (existsb _ acc); [apply IH|].
    destruct (lookup !! n) as [memo|]; [|apply IH].
    destruct (IH (acc ++ [memo])) as [extra ->].
    exists (memo :: extra). by rewrite <- app_assoc.
Qed.

Lemma push_linked_NoDup lookup nos acc :
  keyed lookup →
  NoDup (trips_memo_no <$> acc) →
  NoDup (trips_memo_no <$> foldl (push_linked lookup) acc nos).
Proof.
  intros Hk. revert acc. induction nos as [|n nos IH]; intros acc Hnd; simpl; [done|].
  apply IH. unfold push_linked.
  destruct (existsb (has_memo_no n) acc) eqn:He; [done|].
  destruct (lookup !! n) as [memo|] eqn:Hl; [|done].
  rewrite fmap_app. apply NoDup_app. split; [done|]. split; [|apply NoDup_singleton].
  intros no Hno Hno'. apply list_elem_of_singleton in Hno'. simpl in Hno'.
  rewrite (Hk n memo Hl) in Hno'. subst no.
  apply list_elem_of_fmap in Hno as (m & Hm & Hin).
  assert (existsb (has_memo_no n) acc = true) as He'; [|congruence].
  apply existsb_exists. exists m. split; [by apply list_elem_of_In|].
  by apply bool_decide_eq_true.
Qed.

Lemma loadInitialData_allMemos svc today invoiceIdToLoad s :
  allMemos (loadInitialData svc today invoiceIdToLoad s).1
  = match getCustomers svc, getMemos svc with
    | Resolved _, Resolved memosData => memosMap memosData
    | _, _ => allMemos s
    end.
Proof.
  unfold loadInitialData.
  destruct (getCustomers svc), (getMemos svc); try done.
  destruct invoiceIdToLoad as [i|]; [destruct (id_truthy i)|];
    repeat case_match; simplify_eq/=; done.
Qed.

Lemma handle_allMemos svc ev s : allMemos (handle svc ev s).1 = allMemos s.
Proof.
  destruct ev; simpl; try done.
  unfold handleCustomerChange. repeat case_match; done.
Qed.

(** In every state the form reaches the lookup is keyed by memo number. *)
Lemma reachable_keyed svc today invoiceIdToLoad s :
  reachable svc today invoiceIdToLoad s → keyed (allMemos s).
Proof.
  induction 1 as [|s ev Hr IH Hen|s Hr IH].
  - rewrite loadInitialData_allMemos.
    destruct (getCustomers svc), (getMemos svc);
      first [apply memosMap_keyed | intros k m; simpl; by rewrite lookup_empty].
  - destruct (dispatch_same_rows svc ev s) as (_ & -> & _).
    by rewrite handle_allMemos.
  - by destruct (handleSave_same_rows svc s) as (_ & -> & _).
Qed.

(** X3: in every state the form reaches, the memo table starts with the
    available memos, in their order, whatever they are; and the rows added
    for the memos of the invoice being edited never repeat a memo number:
    when the available memos have distinct numbers, so have all the
    rows. *)
Theorem displayed_rows_unique svc today invoiceIdToLoad (s : FormState) :
  reachable svc today invoiceIdToLoad s →
  (∃ extra, displayMemos s = availableMemos s ++ extra)
  ∧ (NoDup (trips_memo_no <$> availableMemos s) →
     NoDup (trips_memo_no <$> displayMemos s)).
Proof.
  intros Hr. pose proof (reachable_keyed _ _ _ _ Hr) as Hk.
  unfold displayMemos.
  destruct (opt_id_truthy (id (invoice s))); [|split; [exists []; by rewrite app_nil_r|done]].
  destruct (memo_nos (invoice s)) as [nos|]; [|split; [exists []; by rewrite app_nil_r|done]].
  split; [apply push_linked_prefix|by apply push_linked_NoDup].
Qed.

(** X4: a save writes to the store exactly once when the draft is complete
    (an update when the invoice has an identifier, a create when it has
    none, never both) and not at all otherwise; [onSaveSuccess] is called
    exactly when that one write succeeded. *)
Theorem save_writes_once svc (s : FormState) :
  let r := handleSave svc s in
  let inv := invoice s in
  List.filter is_store_write r.2
  = match validateForSave inv with
    | Some _ => []
    | None => [Call (if opt_id_truthy (id inv) then UpdateInvoice inv else AddInvoice inv)]
    end
  ∧ (OnSaveSuccess ∈ r.2
     ↔ validateForSave inv = None ∧ ∃ u, save_outcome svc inv = Resolved u).
Proof.
  simpl. destruct (validateForSave (invoice s)) as [e|] eqn:Hv.
  - rewrite handleSave_invalid by (by rewrite Hv). simpl. split; [done|].
    split; [|by intros [? _]].
    intros Hin. apply list_elem_of_singleton in Hin. discriminate Hin.
  - rewrite handleSave_valid by done. unfold save_outcome. simpl.
    destruct (opt_id_truthy (id (invoice s)));
      [destruct (updateInvoice svc (invoice s)) as [u|]
      |destruct (addInvoice svc (invoice s)) as [u|]];
      simpl; (split; [done|]); split;
      try (intros _; split; [done|by exists u]);
      try (intros [_ [? ?]]; done);
      try (intros _; do 2 right; by left);
      intros Hin; repeat (apply elem_of_cons in Hin as [Hin|Hin]; [discriminate Hin|]);
      by apply elem_of_nil in Hin.
Qed.

(** X5: whatever the services answer, loading ends with the spinner off,
    raises at most one notice and never writes to the store. *)
Theorem load_always_finishes svc today invoiceIdToLoad (s : FormState) :
  let r := loadInitialData svc today invoiceIdToLoad s in
  isLoading r.1 = false
  ∧ (length (List.filter is_toast r.2) ≤ 1)%nat
  ∧ List.filter is_store_write r.2 = [].
Proof.
  unfold loadInitialData.
  destruct (getCustomers svc), (getMemos svc); try (simpl; repeat split; lia).
  destruct invoiceIdToLoad as [i|]; [destruct (id_truthy i)|];
    repeat case_match; simplify_eq/=; repeat split; lia.
Qed.

(** X6: when the invoice asked for does not exist, the form shows the
    not-found notice, asks its parent to close it, asks for no invoice
    number and keeps the blank draft it had. *)
Theorem load_not_found svc today (invoiceId : Z) (s : FormState) customersData memosData :
  getCustomers svc = Resolved customersData →
  getMemos svc = Resolved memosData →
  id_truthy invoiceId = true →
  getInvoiceById svc invoiceId = Resolved None →
  let r := loadInitialData svc today (Some invoiceId) s in
  r.2 = [Call GetCustomers; Call GetMemos; Call (GetInvoiceById invoiceId);
         Toast "Invoice not found." error; OnCancel]
  ∧ id (invoice r.1) = id (invoice s)
  ∧ invoice_no (invoice r.1) = invoice_no (invoice s)
  ∧ customer_name (invoice r.1) = customer_name (invoice s)
  ∧ memo_nos (invoice r.1) = memo_nos (invoice s)
  ∧ amount_paid (invoice r.1) = amount_paid (invoice s)
  ∧ availableMemos r.1 = availableMemos s.
Proof.
  intros Hc Hm Hid Hby. unfold loadInitialData.
  rewrite Hc, Hm, Hid, Hby. simpl. done.
Qed.

Lemma foldl_insert_last (memosData : list MemoData) (lookup : gmap string MemoData) k :
  foldl (λ m memo, <[trips_memo_no memo := memo]> m) lookup memosData !! k
  = match last (filter (λ memo, trips_memo_no memo = k) memosData) with
    | Some memo => Some memo
    | None => lookup !! k
    end.
Proof.
  revert lookup. induction memosData as [|memo l IH]; intros lookup; simpl; [done|].
  rewrite IH, filter_cons. destruct (decide (trips_memo_no memo = k)) as [Hk|Hk].
  - rewrite last_cons. destruct (last (filter _ l)); [done|].
    by rewrite <- Hk, lookup_insert_eq.
  - destruct (last (filter _ l)); [done|]. by rewrite lookup_insert_ne.
Qed.

(** X7: the lookup built while loading answers a memo number with the last
    memo of the fetched list that carries it (and with nothing when there
    is none): of two memos with one number the later one wins. *)
Theorem memosMap_last_wins (memosData : list MemoData) (k : string) :
  memosMap memosData !! k = last (filter (λ memo, trips_memo_no memo = k) memosData).
Proof.
  unfold memosMap. rewrite foldl_insert_last, lookup_empty.
  by destruct (last _).
Qed.

(** X8: on an invoice without identifier a change of customer empties the
    selection and, through the totals effect, brings the total to zero and
    the balance to zero minus the amount paid. *)
Theorem customer_change_resets_totals svc (customerName : string) (s : FormState) :
  opt_id_truthy (id (invoice s)) = false →
  let s' := (dispatch svc (ChangeCustomer customerName) s).1 in
  memo_nos (invoice s') = Some []
  ∧ total_amount (invoice s') = Some zero
  ∧ balance (invoice s') = Some (sub zero (num_or (amount_paid (invoice s)) zero))
  ∧ amount_paid (invoice s') = amount_paid (invoice s).
Proof.
  intros Hid. unfold dispatch, deps_changed; simpl.
  unfold handleCustomerChange. rewrite Hid. simpl.
  destruct (str_truthy customerName); [destruct (getUninvoicedMemosForCustomer svc _)|];
    simpl; unfold reduce_total; simpl; rewrite truthy_zero; done.
Qed.

(** X9: the printed invoice lists the selected memo numbers in the order
    of the selection, leaving out, without any notice, the numbers the
    lookup does not know. *)
Theorem printed_rows_follow_selection svc today invoiceIdToLoad (s : FormState) :
  reachable svc today invoiceIdToLoad s →
  trips_memo_no <$> selectedMemosDetails s
  = filter (λ memoNo, is_Some (allMemos s !! memoNo)) (default [] (memo_nos (invoice s))).
Proof.
  intros Hk%reachable_keyed. unfold selectedMemosDetails.
  induction (default [] (memo_nos (invoice s))) as [|n nos IH]; [done|].
  simpl. destruct (allMemos s !! n) as [memo|] eqn:Hl; simpl.
  - rewrite filter_cons_True by (by rewrite Hl).
    rewrite (Hk n memo Hl). by f_equal.
  - rewrite filter_cons_False by (rewrite Hl; by intros [? ?]). done.
Qed.
End form_extras.

(** Witness of [check_then_uncheck_restores]: M1 on the draft that has a
    customer and no selection yet. *)
Lemma check_then_uncheck_restores_witness :
  (dispatch Scenario.svc (ToggleMemo "M1" false)
     (dispatch Scenario.svc (ToggleMemo "M1" true) Scenario.customer_only).1).1
  = Scenario.customer_only.
Proof.
  apply (check_then_uncheck_restores Scenario.svc "M1" Scenario.customer_only []).
  - reflexivity.
  - apply not_elem_of_nil.
  - split; by vm_compute.
Defined.

(** Witness of [displayed_rows_unique]: invoice 7 opened for editing shows
    M2, M3 and then its own M1. *)
Lemma displayed_rows_unique_witness :
  trips_memo_no <$> displayMemos Scenario.editing_INV7 = ["M2"; "M3"; "M1"]
  ∧ (∃ extra, displayMemos Scenario.editing_INV7
              = availableMemos Scenario.editing_INV7 ++ extra)
  ∧ NoDup (trips_memo_no <$> displayMemos Scenario.editing_INV7).
Proof.
  split; [reflexivity|].
  destruct (displayed_rows_unique Scenario.billed_svc Scenario.today (Some 7%Z)
              Scenario.editing_INV7) as [Hprefix Hnd].
  - apply reachable_loaded.
  - split; [exact Hprefix|].
    apply Hnd. apply (bool_decide_unpack _). by vm_compute.
Defined.

(** Witness of [load_not_found]: the ledger without invoices, asked for
    invoice 5. *)
Lemma load_not_found_witness :
  let r := loadInitialData Scenario.svc Scenario.today (Some 5%Z)
             (mount Scenario.today) in
  OnCancel ∈ r.2 ∧ invoice_no (invoice r.1) = Some "".
Proof.
  pose proof (load_not_found Scenario.svc Scenario.today 5 (mount Scenario.today)
                _ _ eq_refl eq_refl eq_refl eq_refl) as (Hlog & _ & Hno & _).
  split; [rewrite Hlog; do 4 right; left|exact Hno].
Defined.

(** Witness of [customer_change_resets_totals]: the scenario's draft (total
    800, paid 200) when the customer is changed: total 0, balance -200. *)
Lemma customer_change_resets_totals_witness :
  let s' := (dispatch Scenario.svc (ChangeCustomer "Zenith") Scenario.paid_200).1 in
  total_amount (invoice s') = Some (JsDecimal.of_Z 0)
  ∧ balance (invoice s') = Some (JsDecimal.of_Z (-200)).
Proof.
  pose proof (customer_change_resets_totals Scenario.svc "Zenith" Scenario.paid_200
                eq_refl) as (_ & Htot & Hbal & _).
  split; [exact Htot|exact Hbal].
Defined.

(** Witness of [printed_rows_follow_selection]: the scenario's draft prints
    M1 and M2. *)
Lemma printed_rows_follow_selection_witness :
  trips_memo_no <$> selectedMemosDetails Scenario.paid_200 = ["M1"; "M2"].
Proof.
  rewrite (printed_rows_follow_selection Scenario.svc Scenario.today None
             Scenario.paid_200 paid_200_reachable).
  by vm_compute.
Defined.

(** * More about the print coordinator *)
Module PrintBoundsProofs.
Import PrintCoordinator PrintBounds.

Lemma filter_filter_le {A} (P Q : A → Prop) `{∀ x, Decision (P x)} `{∀ x, Decision (Q x)}
    (l : list A) :
  (length (filter P (filter Q l)) ≤ length (filter P l))%nat.
Proof.
  induction l as [|x l IH]; [done|].
  rewrite (filter_cons Q), (filter_cons P x l).
  destruct (decide (Q x)); [rewrite (filter_cons P)|];
    destruct (decide (P x)); simpl; lia.
Qed.

Lemma filter_filter_lt {A} (P Q : A → Prop) `{∀ x, Decision (P x)} `{∀ x, Decision (Q x)}
    (l : list A) (t : A) :
  t ∈ l → P t → ¬ Q t →
  (length (filter P (filter Q l)) < length (filter P l))%nat.
Proof.
  intros Hin HP HQ. induction l as [|x l IH]; [by apply elem_of_nil in Hin|].
  apply elem_of_cons in Hin as [<-|Hin].
  - rewrite (filter_cons_False Q) by done. rewrite (filter_cons_True P) by done.
    pose proof (filter_filter_le P Q l). simpl. lia.
  - specialize (IH Hin). rewrite (filter_cons Q), (filter_cons P x l).
    destruct (decide (Q x)); [rewrite (filter_cons P)|];
      destruct (decide (P x)); simpl; lia.
Qed.

Lemma fire_bounded i w : bounded w → bounded (fire i w).
Proof.
  intros [Hc Hp]. unfold fire.
  destruct (list_find _ (timers w)) as [[j t]|] eqn:Hf; [|done].
  apply list_find_Some in Hf as (Hl & Hid & _). apply list_elem_of_lookup_2 in Hl.
  unfold pending, pending_print in *.
  pose proof (filter_filter_le (λ t, task t = printedTask) (λ t, timerId t ≠ i) (timers w)).
  pose proof (filter_filter_le (λ t, task t = printTask) (λ t, timerId t ≠ i) (timers w)).
  destruct (task t) eqn:Ht; split; unfold pending, pending_print; simpl;
    rewrite PrintProofs.count_observe; simpl;
    change (count ?o (clearTimeout i w)) with (count o w); try lia.
  - pose proof (filter_filter_lt (λ t, task t = printTask) (λ t, timerId t ≠ i)
                  (timers w) t Hl Ht (λ Hn, Hn Hid)). lia.
  - pose proof (filter_filter_lt (λ t, task t = printedTask) (λ t, timerId t ≠ i)
                  (timers w) t Hl Ht (λ Hn, Hn Hid)). lia.
Qed.

Lemma signal_bounded c w : bounded w → bounded (step c w AfterPrint).
Proof.
  intros [Hc Hp]. unfold step.
  destruct (listeners w) as [|[] [|l ls]] eqn:Hl;
    [split; simpl in *; rewrite ?Hl; simpl; lia| |simpl in Hc; lia].
  simpl. rewrite Hl. simpl in Hc. unfold pending, pending_print, count in *.
  split; unfold pending, pending_print, count; simpl; rewrite filter_app, length_app.
  - rewrite filter_cons_True by done. simpl. lia.
  - rewrite filter_cons_False by done. simpl. lia.
Qed.

Lemma cleanup_bounded c w : bounded w → bounded (cleanup c w).
Proof.
  intros [Hc Hp]. destruct c as [printTimer|]; unfold cleanup.
  - pose proof (filter_filter_le (λ t, task t = printedTask)
                  (λ t, timerId t ≠ printTimer) (timers w)).
    pose proof (filter_filter_le (λ t, task t = printTask)
                  (λ t, timerId t ≠ printTimer) (timers w)).
    pose proof (length_filter (λ l', l' ≠ handleAfterPrint) (listeners w)).
    unfold pending, pending_print in *.
    split; unfold pending, pending_print; rewrite PrintProofs.count_observe; simpl;
      unfold count in *; simpl; lia.
  - split; unfold pending, pending_print in *; rewrite PrintProofs.count_observe; simpl;
      unfold count in *; simpl; lia.
Qed.

Lemma run_bounded c evs w : bounded w → bounded (run c evs w).
Proof.
  revert w. induction evs as [|ev evs IH]; intros w Hw; simpl; [done|].
  apply IH. destruct ev as [|i|]; simpl.
  - by apply (signal_bounded c).
  - by apply fire_bounded.
  - by apply cleanup_bounded.
Qed.

(** X10: in download mode, whatever the order of signals, timer expiries
    and teardowns, [window.print()] is called at most once and the
    completion callback is called at most once. *)
Theorem print_and_callback_at_most_once (evs : list Event) :
  let w := run download_mode.2 evs download_mode.1 in
  (count PrintInvoked w ≤ 1)%nat ∧ (count Printed w ≤ 1)%nat.
Proof.
  assert (bounded (run download_mode.2 evs download_mode.1)) as [Hc Hp].
  { apply run_bounded. split; simpl; reflexivity. }
  intros w. unfold w. lia.
Qed.

Lemma fire_all_armed (ts : list Timer) w :
  armed w → armed (foldl (λ w t, fire (timerId t) w) w ts).
Proof.
  revert w. induction ts as [|t ts IH]; intros w Hw; simpl; [done|].
  by apply IH, PrintProofs.fire_armed.
Qed.

(** X11: when the print-finished signal never arrives (the print dialog
    gives none), the completion callback is never called, not even when
    every pending timer has expired: the form does not return to the list
    by itself. *)
Theorem no_signal_no_callback (evs : list Event) :
  AfterPrint ∉ evs →
  count Printed (settle (run download_mode.2 evs download_mode.1)) = 0.
Proof.
  intros Hevs.
  pose proof (PrintProofs.run_armed 0 evs download_mode.1 Hevs) as Ha.
  destruct (fire_all_armed (timers (run (Some 0) evs download_mode.1))
              (run (Some 0) evs download_mode.1)) as [_ Hc]; [|exact Hc].
  apply Ha. by split.
Qed.

Lemma count_runListener o l w : count o (runListener l w) = count o w.
Proof. by destruct l. Qed.

Lemma listeners_print_on_timer_0 (ls : list Listener) w :
  print_on_timer_0 w → print_on_timer_0 (foldl (λ w l, runListener l w) w ls).
Proof.
  revert w. induction ls as [|[] ls IH]; intros w [Ht Hc]; simpl; [done|].
  apply IH. split; [|exact Hc]. simpl. intros t Hin Htask.
  apply elem_of_app in Hin as [Hin|Hin]; [by apply Ht|].
  apply list_elem_of_singleton in Hin. subst t. discriminate Htask.
Qed.

Lemma listeners_print_cancelled (ls : list Listener) w :
  print_cancelled w → print_cancelled (foldl (λ w l, runListener l w) w ls).
Proof.
  revert w. induction ls as [|[] ls IH]; intros w [Ht Hc]; simpl; [done|].
  apply IH. split; [|exact Hc]. simpl. intros t Hin.
  apply elem_of_app in Hin as [Hin|Hin]; [by apply Ht|].
  apply list_elem_of_singleton in Hin. by subst t.
Qed.

Lemma print_cancelled_on_timer_0 w : print_cancelled w → print_on_timer_0 w.
Proof. intros [Ht Hc]. split; [|done]. intros t Hin Htask. by destruct (Ht t Hin). Qed.

Lemma cleanup_print_cancelled w :
  print_on_timer_0 w → print_cancelled (cleanup (Some 0) w).
Proof.
  intros [Ht Hc]. split.
  - simpl. intros t [Hid Hin]%list_elem_of_filter Htask. by apply Hid, Ht.
  - unfold cleanup. rewrite PrintProofs.count_observe. simpl.
    unfold count in *; simpl. lia.
Qed.

Lemma fire_print_cancelled i w : print_cancelled w → print_cancelled (fire i w).
Proof.
  intros [Ht Hc]. unfold fire.
  destruct (list_find _ (timers w)) as [[j t]|] eqn:Hf; [|done].
  apply list_find_Some in Hf as (Hl & Hid & _). apply list_elem_of_lookup_2 in Hl.
  destruct (task t) eqn:Htask; [by destruct (Ht t Hl)|].
  split.
  - simpl. intros t' [_ Hin]%list_elem_of_filter. by apply Ht.
  - simpl. rewrite PrintProofs.count_observe. simpl.
    change (count PrintInvoked (clearTimeout i w)) with (count PrintInvoked w). lia.
Qed.

Lemma fire_print_on_timer_0 i w :
  i ≠ 0 → print_on_timer_0 w → print_on_timer_0 (fire i w).
Proof.
  intros Hi [Ht Hc]. unfold fire.
  destruct (list_find _ (timers w)) as [[j t]|] eqn:Hf; [|done].
  apply list_find_Some in Hf as (Hl & Hid & _). apply list_elem_of_lookup_2 in Hl.
  destruct (task t) eqn:Htask; [destruct Hi; rewrite <- Hid; by apply Ht|].
  split.
  - simpl. intros t' [_ Hin]%list_elem_of_filter. by apply Ht.
  - simpl. rewrite PrintProofs.count_observe. simpl.
    change (count PrintInvoked (clearTimeout i w)) with (count PrintInvoked w). lia.
Qed.

Lemma run_print_on_timer_0 evs w :
  TimerFires 0 ∉ evs → print_on_timer_0 w → print_on_timer_0 (run (Some 0) evs w).
Proof.
  revert w. induction evs as [|ev evs IH]; intros w Hevs Hw; simpl; [done|].
  apply not_elem_of_cons in Hevs as [Hev Hevs]. apply IH; [done|].
  destruct ev as [|i|]; simpl.
  - by apply listeners_print_on_timer_0.
  - apply fire_print_on_timer_0; [congruence|done].
  - by apply print_cancelled_on_timer_0, cleanup_print_cancelled.
Qed.

Lemma run_print_cancelled evs w :
  print_cancelled w → print_cancelled (run (Some 0) evs w).
Proof.
  revert w. induction evs as [|ev evs IH]; intros w Hw; simpl; [done|].
  apply IH. destruct ev as [|i|]; simpl.
  - by apply listeners_print_cancelled.
  - by apply fire_print_cancelled.
  - by apply cleanup_print_cancelled, print_cancelled_on_timer_0.
Qed.

(** X13: when the component is torn down before its 300 ms print timer has
    expired, [window.print()] is never called, whatever happens before and
    afterwards. *)
Theorem teardown_before_print_timer (before after : list Event) :
  TimerFires 0 ∉ before →
  count PrintInvoked
    (run download_mode.2 (before ++ Unmount :: after) download_mode.1) = 0.
Proof.
  intros Hb. unfold run. rewrite foldl_app. simpl.
  fold (run download_mode.2 before download_mode.1).
  assert (print_on_timer_0 (run (Some 0) before download_mode.1)) as Hw.
  { apply run_print_on_timer_0; [done|]. split; [|done]. simpl.
    intros t Hin _. apply list_elem_of_singleton in Hin. by subst t. }
  apply cleanup_print_cancelled in Hw.
  by destruct (run_print_cancelled after _ Hw).
Qed.
End PrintBoundsProofs.

(** Witness of [no_signal_no_callback]: the print timer expires and no
    signal follows. *)
Lemma no_signal_no_callback_witness :
  PrintCoordinator.trace
    (PrintCoordinator.settle
       (PrintCoordinator.run PrintCoordinator.download_mode.2
          [PrintCoordinator.TimerFires 0] PrintCoordinator.download_mode.1))
  = [PrintCoordinator.PrintInvoked]
  ∧ PrintCoordinator.count PrintCoordinator.Printed
      (PrintCoordinator.settle
         (PrintCoordinator.run PrintCoordinator.download_mode.2
            [PrintCoordinator.TimerFires 0] PrintCoordinator.download_mode.1)) = 0.
Proof.
  split; [reflexivity|].
  apply (PrintBoundsProofs.no_signal_no_callback [PrintCoordinator.TimerFires 0]).
  rewrite not_elem_of_cons. split; [discriminate|apply not_elem_of_nil].
Defined.

(** Witness of [teardown_before_signal_is_clean]: the print timer expires,
    the component is torn down, and only then the signal arrives and the
    timers are let to expire. *)
Lemma teardown_before_signal_is_clean_witness :
  PrintCoordinator.count PrintCoordinator.Printed
    (PrintCoordinator.run PrintCoordinator.download_mode.2
       ([PrintCoordinator.TimerFires 0]
          ++ PrintCoordinator.Unmount
          :: [PrintCoordinator.AfterPrint; PrintCoordinator.TimerFires 1])
       PrintCoordinator.download_mode.1) = 0.
Proof.
  apply (PrintProofs.teardown_before_signal_is_clean [PrintCoordinator.TimerFires 0]).
  rewrite not_elem_of_cons. split; [discriminate|apply not_elem_of_nil].
Defined.

(** Witness of [teardown_before_print_timer]: torn down at once, after
    which timer 0 would have expired. *)
Lemma teardown_before_print_timer_witness :
  PrintCoordinator.count PrintCoordinator.PrintInvoked
    (PrintCoordinator.run PrintCoordinator.download_mode.2
       ([] ++ PrintCoordinator.Unmount :: [PrintCoordinator.TimerFires 0])
       PrintCoordinator.download_mode.1) = 0.
Proof.
  apply (PrintBoundsProofs.teardown_before_print_timer []). apply not_elem_of_nil.
Defined.

(** * More about the two lists *)
Section list_extras.
Context `{JsNumber}.
Variable sortByMemoNoDesc : list MemoData → list MemoData.
Variable sortByInvoiceNoDesc : list Invoice.t → list Invoice.t.
Variable deleteInvoice : Z → Settled unit.

Lemma foldl_invoice_last (invoiceData : list Invoice.t) (m : gmap string string) k :
  foldl (λ m invoice,
           foldl (λ m memoNo, <[memoNo := Invoice.invoice_no invoice]> m)
                 m (Invoice.memo_nos invoice)) m invoiceData !! k
  = match last (filter (λ i, k ∈ Invoice.memo_nos i) invoiceData) with
    | Some i => Some (Invoice.invoice_no i)
    | None => m !! k
    end.
Proof.
  revert m. induction invoiceData as [|i l IH]; intros m; simpl; [done|].
  rewrite IH, filter_cons. destruct (decide (k ∈ Invoice.memo_nos i)) as [Hk|Hk].
  - rewrite last_cons. destruct (last (filter _ l)); [done|].
    by rewrite foldl_insert_memo_nos, bool_decide_eq_true_2.
  - destruct (last (filter _ l)); [done|].
    by rewrite foldl_insert_memo_nos, bool_decide_eq_false_2.
Qed.

(** X14: the invoicing map of the memo list answers a memo number with the
    invoice number of the last fetched invoice that lists it, and with
    nothing when no invoice lists it. *)
Theorem newInvoiceMap_last_wins (invoiceData : list Invoice.t) (k : string) :
  MemoCRUD.newInvoiceMap invoiceData !! k
  = Invoice.invoice_no <$> last (filter (λ i, k ∈ Invoice.memo_nos i) invoiceData).
Proof.
  unfold MemoCRUD.newInvoiceMap. rewrite foldl_invoice_last, lookup_empty.
  by destruct (last _).
Qed.

(** X15: the memo list asks the store to delete a memo only from the
    confirmation prompt, and then exactly the memo the prompt was opened
    for; the Edit and Delete buttons of a row never call the store. *)
Theorem memo_delete_only_confirmed svc (s : MemoCRUD.State) (memo : MemoData) (no : string) :
  (Call (DeleteMemo no) ∈ (MemoCRUD.handleDelete sortByMemoNoDesc svc s).2
   ↔ trips_memo_no <$> MemoCRUD.memoToDelete s = Some no)
  ∧ List.filter is_store_call (MemoCRUD.clickEdit s memo).2 = []
  ∧ (MemoCRUD.clickDelete s memo).2 = [].
Proof.
  split; [|split].
  - unfold MemoCRUD.handleDelete, MemoCRUD.fetchData.
    destruct (MemoCRUD.memoToDelete s) as [m|]; simpl.
    + destruct (deleteMemo svc (trips_memo_no m));
        [destruct (getMemos svc), (getInvoices svc)|]; simpl;
        (split; [intros Hin|intros [= ->]; by left]);
        (apply elem_of_cons in Hin as [[= ->]|Hin]; [done|]);
        repeat (apply elem_of_cons in Hin as [Hin|Hin]; [discriminate Hin|]);
        by apply elem_of_nil in Hin.
    + split; [intros Hin; by apply elem_of_nil in Hin|done].
  - unfold MemoCRUD.clickEdit. by destruct (MemoCRUD.editDisabled _).
  - unfold MemoCRUD.clickDelete. by destruct (MemoCRUD.deleteDisabled _).
Qed.

(** X16: confirming a deletion closes the prompt and re-enables its button
    whether the store deletes the memo or not; when it does not, the list
    and the invoicing map stay as they were and one failure notice is
    shown; when it does, the list is fetched again. *)
Theorem memo_delete_outcome svc (s : MemoCRUD.State) (memo : MemoData) :
  MemoCRUD.memoToDelete s = Some memo →
  let r := MemoCRUD.handleDelete sortByMemoNoDesc svc s in
  MemoCRUD.isDeleteConfirmOpen r.1 = false
  ∧ MemoCRUD.memoToDelete r.1 = None
  ∧ MemoCRUD.isSubmitting r.1 = false
  ∧ match deleteMemo svc (trips_memo_no memo) with
    | Rejected =>
      MemoCRUD.memos r.1 = MemoCRUD.memos s
      ∧ MemoCRUD.invoiceMap r.1 = MemoCRUD.invoiceMap s
      ∧ r.2 = [Call (DeleteMemo (trips_memo_no memo)); Toast "Failed to delete memo" error]
    | Resolved _ =>
      MemoCRUD.memos r.1 = MemoCRUD.memos (MemoCRUD.fetchData sortByMemoNoDesc svc s).1
      ∧ MemoCRUD.invoiceMap r.1
        = MemoCRUD.invoiceMap (MemoCRUD.fetchData sortByMemoNoDesc svc s).1
      ∧ r.2 = Call (DeleteMemo (trips_memo_no memo))
              :: Toast "Memo deleted successfully" success
              :: (MemoCRUD.fetchData sortByMemoNoDesc svc s).2
    end.
Proof.
  intros Hm. unfold MemoCRUD.handleDelete. rewrite Hm.
  destruct (deleteMemo svc (trips_memo_no memo)); [|done].
  by destruct (MemoCRUD.fetchData sortByMemoNoDesc svc s).
Qed.

(** X17: the invoice list deletes only an invoice whose identifier is
    truthy.  With no invoice chosen, or one whose identifier is 0, the
    confirm button does nothing at all, so the prompt stays open; with a
    truthy identifier it calls the store once for that identifier, closes
    the prompt and re-enables the button, and a failed deletion leaves the
    list as it was. *)
Theorem invoice_delete_guarded svc (s : InvoiceCRUD.State) :
  let r := InvoiceCRUD.handleDelete sortByInvoiceNoDesc deleteInvoice svc s in
  match InvoiceCRUD.invoiceToDelete s with
  | Some invoice =>
    if id_truthy (Invoice.id invoice) then
      InvoiceCRUD.isDeleteConfirmOpen r.1 = false
      ∧ InvoiceCRUD.invoiceToDelete r.1 = None
      ∧ InvoiceCRUD.isSubmitting r.1 = false
      ∧ head r.2 = Some (InvoiceCRUD.CallDeleteInvoice (Invoice.id invoice))
      ∧ (∀ i, In (InvoiceCRUD.CallDeleteInvoice i) (tail r.2) → False)
      ∧ match deleteInvoice (Invoice.id invoice) with
        | Rejected =>
          InvoiceCRUD.invoices r.1 = InvoiceCRUD.invoices s
          ∧ tail r.2 = [InvoiceCRUD.Notice "Failed to delete invoice" error]
        | Resolved _ =>
          InvoiceCRUD.invoices r.1
          = InvoiceCRUD.invoices (InvoiceCRUD.fetchData sortByInvoiceNoDesc svc s).1
        end
    else r = (s, [])
  | None => r = (s, [])
  end.
Proof.
  unfold InvoiceCRUD.handleDelete.
  destruct (InvoiceCRUD.invoiceToDelete s) as [invoice|]; [|done].
  destruct (id_truthy (Invoice.id invoice)); [|done].
  unfold InvoiceCRUD.fetchData.
  destruct (deleteInvoice (Invoice.id invoice)); [destruct (getInvoices svc)|];
    simpl; repeat split; try done; intros i Hin; simpl in Hin;
    repeat destruct Hin as [Hin|Hin]; done.
Qed.
End list_extras.

(** * The application shell *)
Section shell.
Import App.

(** The two list pages are only ever entered with the form state of their
    kind cleared. *)
Lemma list_pages_clean (a : State) :
  reachable a →
  (currentPage a = MANAGE_INVOICES →
   editingInvoiceId a = None ∧ printInvoiceOnLoad a = false)
  ∧ (currentPage a = MANAGE_MEMOS → editingMemoNo a = None ∧ printOnLoad a = false).
Proof.
  destruct 1 as [|a ev _]; [by split|].
  destruct ev as [page| | | | | | |]; simpl; split; try done.
Qed.

(** X18: although [onCreateInvoice] only switches the page, "Create New
    Invoice" always opens an empty form: however the invoice list was
    reached, the form is mounted without an invoice to load and without
    print-on-load, under the title "Create New Invoice". *)
Theorem create_opens_blank_form (pageName : Page → string) (a : State) :
  reachable a →
  currentPage a = MANAGE_INVOICES →
  renderPage (step a CreateInvoice) = InvoiceForm None false
  ∧ pageTitle pageName (step a CreateInvoice) = "Create New Invoice".
Proof.
  intros Hr Hp. destruct (list_pages_clean a Hr) as [Hinv _].
  destruct (Hinv Hp) as [Hid Hprint].
  unfold renderPage, pageTitle; simpl. by rewrite Hid, Hprint.
Qed.

(** X20: opening a form from its list and closing it again (by save,
    cancel or the print callback) brings the shell back to exactly the
    state it was in, for the invoice list and for the memo list. *)
Theorem open_close_round_trip (a : State) (invoiceId : Z) (memoNo : string) :
  reachable a →
  (currentPage a = MANAGE_INVOICES →
   step (step a (EditInvoice invoiceId)) InvoiceFormClose = a
   ∧ step (step a (DownloadInvoice invoiceId)) InvoiceFormClose = a
   ∧ step (step a CreateInvoice) InvoiceFormClose = a)
  ∧ (currentPage a = MANAGE_MEMOS →
     step (step a (EditMemo memoNo)) MemoFormClose = a
     ∧ step (step a (DownloadMemo memoNo)) MemoFormClose = a).
Proof.
  intros Hr. destruct (list_pages_clean a Hr) as [Hinv Hmemo]. split; intros Hp.
  - destruct (Hinv Hp) as [Hid Hprint]. destruct a; simpl in *. by subst.
  - destruct (Hmemo Hp) as [Hno Hprint]. destruct a; simpl in *. by subst.
Qed.
End shell.

(** * The shell together with the invoice form *)
Section shell_and_form.
Context `{JsNumber}.
Import App.

(** X19: the page title and the form agree on what the invoice form is
    doing.  When the two initial fetches succeed and the form is not in
    download mode, the title is "Edit Invoice" exactly when the form asks
    the store for the invoice with the identifier being edited, and "Create
    New Invoice" exactly when it asks for a new invoice number instead; an
    identifier of 0 counts as none on both sides. *)
Theorem title_matches_form_mode (pageName : Page → string) (a : State)
    svc today (s : FormState) customersData memosData :
  currentPage a = INVOICE_FORM →
  printInvoiceOnLoad a = false →
  getCustomers svc = Resolved customersData →
  getMemos svc = Resolved memosData →
  let log := (loadInitialData svc today (editingInvoiceId a) s).2 in
  if opt_id_truthy (editingInvoiceId a) then
    pageTitle pageName a = "Edit Invoice"
    ∧ (∃ invoiceId, editingInvoiceId a = Some invoiceId
                    ∧ Call (GetInvoiceById invoiceId) ∈ log)
    ∧ Call GenerateNewInvoiceNumber ∉ log
  else
    pageTitle pageName a = "Create New Invoice"
    ∧ Call GenerateNewInvoiceNumber ∈ log
    ∧ ∀ invoiceId, Call (GetInvoiceById invoiceId) ∉ log.
Proof.
  intros Hp Hprint Hc Hm. unfold pageTitle, loadInitialData.
  rewrite Hp, Hprint, Hc, Hm. simpl.
  destruct (editingInvoiceId a) as [i|]; simpl; [destruct (id_truthy i)|].
  - split; [done|]. split.
    + exists i. split; [done|]. repeat case_match; simplify_eq/=; do 2 right; by left.
    + repeat case_match; simplify_eq/=; intros Hin;
        repeat (apply elem_of_cons in Hin as [Hin|Hin]; [discriminate Hin|]);
        by apply elem_of_nil in Hin.
  - split; [done|]. split.
    + repeat case_match; simplify_eq/=; do 2 right; by left.
    + intros i'. repeat case_match; simplify_eq/=; intros Hin;
        repeat (apply elem_of_cons in Hin as [Hin|Hin]; [discriminate Hin|]);
        by apply elem_of_nil in Hin.
  - split; [done|]. split.
    + repeat case_match; simplify_eq/=; do 2 right; by left.
    + intros i'. repeat case_match; simplify_eq/=; intros Hin;
        repeat (apply elem_of_cons in Hin as [Hin|Hin]; [discriminate Hin|]);
        by apply elem_of_nil in Hin.
Qed.
End shell_and_form.

(** * Witnesses for the lists and the shell *)

(** Witness of [memo_delete_outcome]: the prompt is open for M3 and the
    store refuses to delete. *)
Lemma memo_delete_outcome_witness :
  let r := MemoCRUD.handleDelete (λ l, l) MoreScenarios.svc_no_delete
             MoreScenarios.memo_prompt in
  MemoCRUD.isDeleteConfirmOpen MoreScenarios.memo_prompt = true
  ∧ MemoCRUD.isDeleteConfirmOpen r.1 = false
  ∧ MemoCRUD.memos r.1 = MemoCRUD.memos MoreScenarios.memo_prompt.
Proof.
  pose proof (memo_delete_outcome (λ l, l) MoreScenarios.svc_no_delete
                MoreScenarios.memo_prompt Scenario.M3 eq_refl) as (Hopen & _ & _ & Hkeep & _).
  split; [reflexivity|]. split; [exact Hopen|exact Hkeep].
Defined.

(** Witness of [numbered_invoices_lock_memos]: M1, billed on invoice 7. *)
Lemma numbered_invoices_lock_memos_witness :
  MemoCRUD.editDisabled (MemoCRUD.renderRow MoreScenarios.memo_list_billed Scenario.M1) = true
  ∧ MemoCRUD.clickDelete MoreScenarios.memo_list_billed Scenario.M1
    = (MoreScenarios.memo_list_billed, []).
Proof.
  pose proof (numbered_invoices_lock_memos (λ l, l) Scenario.billed_svc MemoCRUD.initial
                (store_memos Scenario.billed) (store_invoices Scenario.billed) Scenario.M1
                eq_refl eq_refl) as Hlock.
  destruct Hlock as (Hedit & _ & _ & _ & _ & Hclick).
  - repeat constructor; discriminate.
  - exists Scenario.INV7. split; by left.
  - split; [exact Hedit|exact Hclick].
Defined.

(** Witness of [create_opens_blank_form]: the invoice list reached from
    the sidebar. *)
Lemma create_opens_blank_form_witness :
  App.renderPage (App.step MoreScenarios.on_invoice_list App.CreateInvoice)
  = App.InvoiceForm None false.
Proof.
  apply (create_opens_blank_form (λ _, "") MoreScenarios.on_invoice_list).
  - apply App.reachable_step, App.reachable_initial.
  - reflexivity.
Defined.

(** Witness of [open_close_round_trip]: Edit on invoice 7, then close. *)
Lemma open_close_round_trip_witness :
  App.step MoreScenarios.editing_7 App.InvoiceFormClose = MoreScenarios.on_invoice_list.
Proof.
  destruct (open_close_round_trip MoreScenarios.on_invoice_list 7 "M1") as [Hinv _].
  - apply App.reachable_step, App.reachable_initial.
  - apply Hinv. reflexivity.
Defined.

(** Witness of [title_matches_form_mode]: invoice 7 being edited. *)
Lemma title_matches_form_mode_witness :
  App.pageTitle (λ _, "") MoreScenarios.editing_7 = "Edit Invoice"
  ∧ Call (GetInvoiceById 7)
    ∈ (loadInitialData Scenario.billed_svc Scenario.today (Some 7%Z)
         (mount Scenario.today)).2.
Proof.
  pose proof (title_matches_form_mode (λ _, "") MoreScenarios.editing_7
                Scenario.billed_svc Scenario.today (mount Scenario.today) _ _
                eq_refl eq_refl eq_refl eq_refl) as (Htitle & Hcall & _).
  split; [exact Htitle|].
  destruct Hcall as (i & Hi & Hin). by injection Hi as <-.
Defined.

Section form_extras_2.
Context `{JsNumber}.

End form_extras_2.

